(** * qr_scanner.py: the scan loop and the camera probe

    A shallow embedding of [scan_qr_codes], [test_camera] and the script body
    of [src/qr_scanner.py], and the properties of the accept/reject rule, the
    callback guard, the overlay and the probe.

    Conventions of the embedding.
    - The file is embedded in two layers.  Module [Scanner] holds
      [scan_qr_codes] for detections whose payload line 50 has decoded: a
      detection carries its text, and the callback is the one that passes the
      truth test of lines 31 and 62, if any.  Module [Full] holds the functions from the
      bytes on: a detection carries [obj.data] as bytes, line 50 decodes it
      and may raise [UnicodeDecodeError] out of the loop, and the callback is
      the object as given, with its truth value.  [Full.for_body] is line 50
      followed by [Scanner.for_body].
    - A Python [str] is a [string], held as its UTF-8 bytes.
    - A reading of [time.time()] is a rational number of seconds and the
      subtraction [current_time - last_scan_time] is exact.
    - The local variables of [scan_qr_codes] ([scanned_codes],
      [last_scan_time], [newly_scanned_data]) form the record [scanner] and are
      passed explicitly.
    - Calls that reach outside the function (print, the callback, the beep, the
      drawing, the display, the camera) are recorded, in order, in a list of
      [event]s.
    - An [exn] is a raised instance of Python's [Exception], the class that
      both [except] clauses of the file name.  The callback, the calls of the
      probe and the decoding of line 50 may raise; the camera and display
      calls of [scan_qr_codes] signal failure through their return values
      ([isOpened()], [ret]). *)

From Stdlib Require Import ZArith QArith Lqa.
From stdpp Require Import gmap strings list.
Close Scope Q_scope.

(** ** Data *)

(** [pyzbar]'s [Point(x, y)]. *)
Record Point := mkPoint { px : Z; py : Z }.

(** [pyzbar]'s [Decoded]: the fields the scanner reads.  [data] is the
    payload as text, as line 50 has decoded it. *)
Record Decoded := mkDecoded { data : string; polygon : list Point }.

(** A detection together with the value [time.time()] has while the loop body
    handles it. *)
Record sighting := mkSighting { obj : Decoded; now : Q }.

Inductive exn := Exception (msg : string).

(** The lines printed to the console. *)
Inductive message :=
| MsgCameraError                 (* "Error: Could not open camera." *)
| MsgCameraOpened                (* "Camera opened. Point a QR code at the camera." *)
| MsgPressQ                      (* "Press 'q' to quit." *)
| MsgRealTime                    (* "Real-time updates enabled ..." *)
| MsgNewCode (d : string)        (* "New QR Code Detected: {data}" *)
| MsgCalling (d : string)        (* "Calling real-time update for: {data[:50]}..." *)
| MsgUpdateOk                    (* "Real-time update successful!" *)
| MsgUpdateError (e : exn)       (* "Error in real-time update: {e}" *)
| MsgStreamEnd                   (* "Error: Can't receive frame (stream end?). Exiting ..." *)
| MsgStopped (n : nat)           (* "Scanner stopped. Found {n} new QR codes." *)
| MsgProbeError (e : exn).       (* "Error probando camara: {e}" *)

Inductive event :=
| VideoCapture                   (* cv2.VideoCapture(0) *)
| Read                           (* cap.read() *)
| Release                        (* cap.release() *)
| Println (m : message)          (* print(...) *)
| Clock (t : Q)                  (* time.time() returned t *)
| Callback (d : string)          (* update_callback(data) entered *)
| Beep                           (* play_beep() *)
| Polylines (pts : list (Z * Z)) (* cv2.polylines(frame, [pts], True, (0, 255, 0), 2) *)
| Imshow                         (* cv2.imshow(title, frame) *)
| DestroyAllWindows.

(** ** Computations that log events, thread a state and may raise *)

Inductive outcome (A : Type) :=
| Normal (a : A)
| Raised (e : exn).
Arguments Normal {A} a.
Arguments Raised {A} e.

(** A computation over a store [S]: its outcome, the store it leaves and the
    events it produced. *)
Definition M (S A : Type) : Type := S -> outcome A * S * list event.

Definition ret {S A} (a : A) : M S A := fun s => (Normal a, s, []).

Definition bind {S A B} (m : M S A) (k : A -> M S B) : M S B :=
  fun s =>
    match m s with
    | (Normal a, s1, l1) =>
        match k a s1 with
        | (r, s2, l2) => (r, s2, l1 ++ l2)
        end
    | (Raised e, s1, l1) => (Raised e, s1, l1)
    end.

Definition emit {S} (ev : event) : M S unit := fun s => (Normal tt, s, [ev]).

(** [try: body / except Exception as e: handler e]. *)
Definition try_except {S A} (body : M S A) (handler : exn -> M S A) : M S A :=
  fun s =>
    match body s with
    | (Normal a, s1, l1) => (Normal a, s1, l1)
    | (Raised e, s1, l1) =>
        match handler e s1 with
        | (r, s2, l2) => (r, s2, l1 ++ l2)
        end
    end.

(** The result of a library call that may raise, as a computation. *)
Definition lift {S A} (o : outcome A) : M S A := fun s => (o, s, []).

Declare Scope py_scope.
Delimit Scope py_scope with py.
Notation "x <- c1 ;; c2" := (bind c1 (fun x => c2))
  (at level 100, c1 at next level, right associativity) : py_scope.
Notation "c1 ;; c2" := (bind c1 (fun _ => c2))
  (at level 100, right associativity) : py_scope.
Open Scope py_scope.

(** [a < b] on rationals, as a boolean. *)
Definition Qltb (a b : Q) : bool := negb (Qle_bool b a).

(** ** scan_qr_codes *)

(** The local variables of one call of [scan_qr_codes]. *)
Record scanner := mkScanner {
  scanned_codes : gset string;
  last_scan_time : Q;
  newly_scanned_data : list string
}.

(** Lines 34-36. *)
Definition init_scanner : scanner :=
  {| scanned_codes := ∅; last_scan_time := 0%Q; newly_scanned_data := [] |}.

(** One pass of the [while True] loop, as the camera and the keyboard decide
    it: [cap.read()] gives [ret = False], or it gives a frame in which
    [pyzbar.decode] finds [objs] and after which [cv2.waitKey(1)] returns
    [key]. *)
Inductive capture :=
| NoFrame
| Frame (objs : list sighting) (key : Z).

Inductive status := Running | Exited.

Module Scanner.

Section Scan.

(** What the caller's callback remembers between calls. *)
Context {cb_state : Type}.

(** The callback that passes the test [if update_callback:] of lines 31 and
    62: [None] when no callback is given or the object given is false (see
    [truthy]), or a function that is given the text, may change its own
    state, and returns or raises. *)
Variable update_callback : option (cb_state -> string -> outcome unit * cb_state).

(** [cv2.convexHull(points_array, clockwise=True)]. *)
Variable convexHull : list (Z * Z) -> list (Z * Z).

Definition call_callback (f : cb_state -> string -> outcome unit * cb_state)
    (d : string) : M cb_state unit :=
  fun c => let '(r, c') := f c d in (r, c', [Callback d]).

Definition play_beep : M cb_state unit := emit Beep.

(** [np.array([[p.x, p.y] for p in points], dtype=np.int32)]. *)
Definition points_array (points : list Point) : list (Z * Z) :=
  map (fun p => (px p, py p)) points.

(** [time.time()]: the reading is the one the detection carries. *)
Definition time_time (s : sighting) : M cb_state Q :=
  emit (Clock (now s));; ret (now s).

(** Lines 52-84: the body of [for obj in decoded_objects] once line 50 has
    decoded the payload to the text [data]; line 50 is in [Full.for_body]. *)
Definition for_body (st : scanner) (s : sighting) : M cb_state scanner :=
  let data := data (obj s) in
  st' <- (if decide (data ∉ scanned_codes st) then
            current_time <- time_time s;;
            if Qltb 2 (current_time - last_scan_time st) then
              emit (Println (MsgNewCode data));;
              let scanned_codes' := scanned_codes st ∪ {[data]} in
              let newly_scanned_data' := newly_scanned_data st ++ [data] in
              match update_callback with
              | Some f =>
                  try_except
                    (emit (Println (MsgCalling data));;
                     call_callback f data;;
                     emit (Println MsgUpdateOk))
                    (fun e => emit (Println (MsgUpdateError e)))
              | None => ret tt
              end;;
              play_beep;;
              ret {| scanned_codes := scanned_codes';
                     last_scan_time := current_time;
                     newly_scanned_data := newly_scanned_data' |}
            else ret st
          else ret st);;
  let points := polygon (obj s) in
  (if (4 <? length points)%nat then
     let hull := convexHull (points_array points) in
     emit (Polylines hull)
   else
     emit (Polylines (points_array points)));;
  ret st'.

(** Lines 49-84: the [for] loop over the detections of one frame, all
    decoded. *)
Fixpoint for_objs (objs : list sighting) (st : scanner) : M cb_state scanner :=
  match objs with
  | [] => ret st
  | s :: objs' => st' <- for_body st s;; for_objs objs' st'
  end.

(** [ord('q')]. *)
Definition ord_q : Z := 113.

(** Lines 39-95: the [while True] loop, run against a script of captures.
    When the script ends before a [break], the loop is still [Running]. *)
Fixpoint while_loop (script : list capture) (st : scanner)
    : M cb_state (status * scanner) :=
  match script with
  | [] => ret (Running, st)
  | NoFrame :: _ =>
      emit Read;;
      emit (Println MsgStreamEnd);;
      ret (Exited, st)
  | Frame objs key :: script' =>
      emit Read;;
      st' <- for_objs objs st;;
      emit Imshow;;
      if (Z.land key 255 =? ord_q)%Z then ret (Exited, st')
      else while_loop script' st'
  end.

(** Lines 15-101.  [opened] is what [cap.isOpened()] answers.  The result is
    [None] while the loop has not left the script's captures behind. *)
Definition scan_qr_codes (opened : bool) (script : list capture)
    : M cb_state (option (list string)) :=
  emit VideoCapture;;
  if negb opened then
    emit (Println MsgCameraError);;
    ret (Some [])
  else
    emit (Println MsgCameraOpened);;
    emit (Println MsgPressQ);;
    match update_callback with
    | Some _ => emit (Println MsgRealTime)
    | None => ret tt
    end;;
    r <- while_loop script init_scanner;;
    match r with
    | (Running, _) => ret None
    | (Exited, st) =>
        emit Release;;
        emit DestroyAllWindows;;
        emit (Println (MsgStopped (length (newly_scanned_data st))));;
        ret (Some (newly_scanned_data st))
    end.

End Scan.

End Scanner.

Import Scanner.

(** ** test_camera *)

Section Probe.

(** A frame as [cap.read()] returns it. *)
Variable image : Type.

(** How the camera answers the four calls of the probe: each returns or
    raises. *)
Record camera := mkCamera {
  cam_VideoCapture : outcome unit;          (* cv2.VideoCapture(0) *)
  cam_isOpened : outcome bool;              (* cap.isOpened() *)
  cam_read : outcome (bool * option image); (* cap.read(): (ret, frame) *)
  cam_release : outcome unit                (* cap.release() *)
}.

(** [frame is not None]. *)
Definition is_not_None (frame : option image) : bool :=
  match frame with Some _ => true | None => false end.

(** Lines 103-120.  [ret] is a [bool], so [ret and frame is not None] is the
    conjunction. *)
Definition test_camera {S} (cam : camera) : M S bool :=
  try_except
    (emit VideoCapture;;
     lift (cam_VideoCapture cam);;
     opened <- lift (cam_isOpened cam);;
     if negb opened then ret false
     else
       emit Read;;
       r <- lift (cam_read cam);;
       emit Release;;
       lift (cam_release cam);;
       ret (fst r && is_not_None (snd r)))
    (fun e => emit (Println (MsgProbeError e));; ret false).

End Probe.

Arguments mkCamera {image} _ _ _ _.
Arguments cam_VideoCapture {image} _.
Arguments cam_isOpened {image} _.
Arguments cam_read {image} _.
Arguments cam_release {image} _.
Arguments is_not_None {image} _.
Arguments test_camera {image S} cam _.


(** ** Reading a log *)

(** The acceptances a log records, oldest first: every "New QR Code Detected"
    line, with the clock reading taken before it.  [t] is the latest reading
    so far. *)
Fixpoint acceptances (t : Q) (l : list event) : list (string * Q) :=
  match l with
  | [] => []
  | Clock t' :: l' => acceptances t' l'
  | Println (MsgNewCode d) :: l' => (d, t) :: acceptances t l'
  | _ :: l' => acceptances t l'
  end.

(** The latest clock reading after a log. *)
Fixpoint latest_clock (t : Q) (l : list event) : Q :=
  match l with
  | [] => t
  | Clock t' :: l' => latest_clock t' l'
  | _ :: l' => latest_clock t l'
  end.

(** The polygons a log draws, in order. *)
Fixpoint drawn (l : list event) : list (list (Z * Z)) :=
  match l with
  | [] => []
  | Polylines pts :: l' => pts :: drawn l'
  | _ :: l' => drawn l'
  end.

(** How often [cap.release()] is called in a log. *)
Fixpoint releases (l : list event) : nat :=
  match l with
  | [] => 0
  | Release :: l' => S (releases l')
  | _ :: l' => releases l'
  end.

(** Whether an event is a call of the callback or a beep. *)
Definition notifies (ev : event) : bool :=
  match ev with
  | Callback _ | Beep => true
  | _ => false
  end.

Section ScanSpec.

Context {cb_state : Type}.
Variable update_callback : option (cb_state -> string -> outcome unit * cb_state).
Variable convexHull : list (Z * Z) -> list (Z * Z).

(** The accept rule of lines 53 and 56. *)
Definition fresh (st : scanner) (s : sighting) : Prop :=
  (data (obj s) ∉ scanned_codes st) ∧ (2 < now s - last_scan_time st)%Q.

(** The locals after an acceptance (lines 58, 59 and 71). *)
Definition accept (st : scanner) (s : sighting) : scanner :=
  {| scanned_codes := scanned_codes st ∪ {[data (obj s)]};
     last_scan_time := now s;
     newly_scanned_data := newly_scanned_data st ++ [data (obj s)] |}.

(** The overlay of a detection: the convex hull of the boundary points when
    there are more than 4 of them, the polygon itself otherwise. *)
Definition overlay (d : Decoded) : list (Z * Z) :=
  if decide (4 < length (polygon d)) then
    convexHull (map (fun p => (px p, py p)) (polygon d))
  else map (fun p => (px p, py p)) (polygon d).

(** What lines 24-32 log when the camera opens. *)
Definition greeting : list event :=
  [VideoCapture; Println MsgCameraOpened; Println MsgPressQ]
    ++ match update_callback with
       | Some _ => [Println MsgRealTime]
       | None => []
       end.

(** What lines 98-100 log for the result [res]. *)
Definition farewell (res : list string) : list event :=
  [Release; DestroyAllWindows; Println (MsgStopped (length res))].

(** What lines 62-68 log for the text [d] from callback state [c], and the
    callback state they leave. *)
Inductive callback_run (c : cb_state) (d : string) : cb_state -> list event -> Prop :=
| cb_absent :
    update_callback = None ->
    callback_run c d c []
| cb_returns f c' :
    update_callback = Some f ->
    f c d = (Normal tt, c') ->
    callback_run c d c' [Println (MsgCalling d); Callback d; Println MsgUpdateOk]
| cb_raises f e c' :
    update_callback = Some f ->
    f c d = (Raised e, c') ->
    callback_run c d c' [Println (MsgCalling d); Callback d; Println (MsgUpdateError e)].

(** The three ways through the loop body. *)
Inductive body_run (st : scanner) (s : sighting) (c : cb_state)
    : outcome scanner * cb_state * list event -> Prop :=
| run_seen :
    data (obj s) ∈ scanned_codes st ->
    body_run st s c (Normal st, c, [Polylines (overlay (obj s))])
| run_debounced :
    data (obj s) ∉ scanned_codes st ->
    (¬ (2 < now s - last_scan_time st)%Q) ->
    body_run st s c (Normal st, c, [Clock (now s); Polylines (overlay (obj s))])
| run_accepted c' mid :
    fresh st s ->
    callback_run c (data (obj s)) c' mid ->
    body_run st s c
      (Normal (accept st s), c',
       Clock (now s) :: Println (MsgNewCode (data (obj s))) :: mid
         ++ [Beep; Polylines (overlay (obj s))]).

End ScanSpec.

(** [trail st acc st']: the locals go from [st] to [st'] through the
    acceptances [acc], each of a text not seen before and more than 2 seconds
    after the one before it. *)
Inductive trail : scanner -> list (string * Q) -> scanner -> Prop :=
| trail_nil st : trail st [] st
| trail_cons st d t acc st' :
    d ∉ scanned_codes st ->
    (2 < t - last_scan_time st)%Q ->
    trail {| scanned_codes := scanned_codes st ∪ {[d]};
             last_scan_time := t;
             newly_scanned_data := newly_scanned_data st ++ [d] |} acc st' ->
    trail st ((d, t) :: acc) st'.

(** The detections the loop gets to handle: those of the frames read before
    the loop leaves, the frame at which 'q' is read included. *)
Fixpoint handled (script : list capture) : list sighting :=
  match script with
  | [] => []
  | NoFrame :: _ => []
  | Frame objs key :: script' =>
      objs ++ (if (Z.land key 255 =? ord_q)%Z then [] else handled script')
  end.

(** Whether the script makes the loop leave: a failed read or a 'q'. *)
Fixpoint leaves (script : list capture) : bool :=
  match script with
  | [] => false
  | NoFrame :: _ => true
  | Frame _ key :: script' => (Z.land key 255 =? ord_q)%Z || leaves script'
  end.

(** ** The loop as a fold over the detections *)

(** Lines 53-59 and 71 without the effects: the locals after one detection. *)
Definition step (st : scanner) (s : sighting) : scanner :=
  if decide (data (obj s) ∉ scanned_codes st) then
    if Qltb 2 (now s - last_scan_time st) then accept st s else st
  else st.

(** The acceptances (text and clock reading) that a run of detections adds,
    starting from the locals [st]. *)
Fixpoint accepted_of (st : scanner) (ss : list sighting) : list (string * Q) :=
  match ss with
  | [] => []
  | s :: ss' =>
      (if decide (data (obj s) ∉ scanned_codes st) then
         if Qltb 2 (now s - last_scan_time st) then [(data (obj s), now s)] else []
       else [])
        ++ accepted_of (step st s) ss'
  end.



(** The frames the loop displays: those read before the loop leaves, the one
    at which 'q' is read included. *)
Fixpoint displayed (script : list capture) : list (list sighting) :=
  match script with
  | [] => []
  | NoFrame :: _ => []
  | Frame objs key :: script' =>
      objs :: (if (Z.land key 255 =? ord_q)%Z then [] else displayed script')
  end.

(** The callback's state after it was called, in order, with the texts [ds]:
    each call passes its state on, whether it returned or raised. *)
Definition callback_state {cb_state : Type}
    (update_callback : option (cb_state -> string -> outcome unit * cb_state))
    (c : cb_state) (ds : list string) : cb_state :=
  match update_callback with
  | Some f => foldl (fun c d => (f c d).2) c ds
  | None => c
  end.

(** ** More readers of a log *)

(** The texts the callback is called with, in order. *)
Fixpoint callbacks (l : list event) : list string :=
  match l with
  | [] => []
  | Callback d :: l' => d :: callbacks l'
  | _ :: l' => callbacks l'
  end.

(** How often [play_beep()] is called. *)
Fixpoint beeps (l : list event) : nat :=
  match l with
  | [] => 0
  | Beep :: l' => S (beeps l')
  | _ :: l' => beeps l'
  end.

(** What the window shows: for every [cv2.imshow], the polygons drawn on the
    frame since it was read.  [pending] holds the polygons drawn on the
    current frame so far. *)
Fixpoint shown (pending : list (list (Z * Z))) (l : list event)
    : list (list (list (Z * Z))) :=
  match l with
  | [] => []
  | Read :: l' => shown [] l'
  | Polylines pts :: l' => shown (pending ++ [pts]) l'
  | Imshow :: l' => pending :: shown pending l'
  | _ :: l' => shown pending l'
  end.

(** Whether an event is a read or a display. *)
Definition frame_event (ev : event) : bool :=
  match ev with
  | Read | Imshow => true
  | _ => false
  end.

(** The lines of the probe's [except] clause in a log. *)
Fixpoint probe_errors (l : list event) : list exn :=
  match l with
  | [] => []
  | Println (MsgProbeError e) :: l' => e :: probe_errors l'
  | _ :: l' => probe_errors l'
  end.

(** The probe's four calls all return, the device reports open and the read
    gives [ret = True] with a frame. *)
Definition probe_ok {image : Type} (cam : camera image) : Prop :=
  cam_VideoCapture cam = Normal tt ∧
  cam_isOpened cam = Normal true ∧
  (∃ img, cam_read cam = Normal (true, Some img)) ∧
  cam_release cam = Normal tt.

(** ** The script body (lines 122-139) *)

(** The lines the script body prints. *)
Inductive main_message :=
| MsgTesting                     (* "Testing camera access..." *)
| MsgStarting                    (* "Starting QR scanner..." *)
| MsgScannedData                 (* "\n--- Scanned Data ---" *)
| MsgItem (item : string)        (* print(item) *)
| MsgNoData                      (* "No data was scanned." *)
| MsgTestFailed.                 (* "Camera test failed. Please check your camera setup." *)

(** What the script body does: its own prints, and the events of the two
    functions it calls. *)
Inductive main_event :=
| Say (m : main_message)
| Inner (ev : event).

(** Lines 132-137: the report of the scanned data. *)
Definition report (scanned_data : list string) : list main_event :=
  match scanned_data with
  | [] => [Say MsgNoData]
  | _ :: _ => Say MsgScannedData :: map (fun item => Say (MsgItem item)) scanned_data
  end.

(** Lines 128-139, for a scanner whose detections all decode.  [cam] answers
    the probe; [opened] and [script] are what the camera and the keyboard do
    once the scanner runs.  The scanner is called without a callback.  The
    result is [None] while the scanner is still in its loop. *)
Definition main {image : Type} (convexHull : list (Z * Z) -> list (Z * Z))
    (cam : camera image) (opened : bool) (script : list capture)
    : outcome (option unit) * list main_event :=
  let '(probe, _, l0) := test_camera cam tt in
  match probe with
  | Raised e => (Raised e, Say MsgTesting :: map Inner l0)
  | Normal true =>
      let '(scan, _, l1) :=
        scan_qr_codes (cb_state := unit) None convexHull opened script tt in
      match scan with
      | Raised e =>
          (Raised e, Say MsgTesting :: map Inner l0 ++ Say MsgStarting :: map Inner l1)
      | Normal None =>
          (Normal None,
           Say MsgTesting :: map Inner l0 ++ Say MsgStarting :: map Inner l1)
      | Normal (Some scanned_data) =>
          (Normal (Some tt),
           Say MsgTesting :: map Inner l0 ++ Say MsgStarting :: map Inner l1
             ++ report scanned_data)
      end
  | Normal false =>
      (Normal (Some tt), Say MsgTesting :: map Inner l0 ++ [Say MsgTestFailed])
  end.

(** The lines the script body prints itself, in order. *)
Fixpoint said (l : list main_event) : list main_message :=
  match l with
  | [] => []
  | Say m :: l' => m :: said l'
  | Inner _ :: l' => said l'
  end.

(** The events of the functions the script body calls, in order. *)
Fixpoint inner (l : list main_event) : list event :=
  match l with
  | [] => []
  | Say _ :: l' => inner l'
  | Inner ev :: l' => ev :: inner l'
  end.

(** How often [cv2.VideoCapture(0)] is called in a log. *)
Fixpoint captures (l : list event) : nat :=
  match l with
  | [] => 0
  | VideoCapture :: l' => S (captures l')
  | _ :: l' => captures l'
  end.

(** [effects update_callback st ss c c' l]: the log [l] and the callback
    state [c'] are those of handling the detections [ss] from the locals [st]
    and the callback state [c]. *)
Record effects {cb_state : Type}
    (update_callback : option (cb_state -> string -> outcome unit * cb_state))
    (st : scanner) (ss : list sighting) (c c' : cb_state) (l : list event)
    : Prop := mkEffects {
  eff_accepted : ∀ t, acceptances t l = accepted_of st ss;
  eff_callbacks :
    callbacks l = match update_callback with
                  | Some _ => (accepted_of st ss).*1
                  | None => []
                  end;
  eff_state : c' = callback_state update_callback c (accepted_of st ss).*1;
  eff_beeps : beeps l = length (accepted_of st ss);
  eff_releases : releases l = 0;
  eff_captures : captures l = 0
}.

(** ** The payload as bytes, and the callback as an object *)

(** [lo <= a <= hi], on a byte. *)
Definition in_range (lo hi : N) (a : Ascii.ascii) : bool :=
  (lo <=? Ascii.N_of_ascii a)%N && (Ascii.N_of_ascii a <=? hi)%N.

(** A continuation byte, [0x80 .. 0xBF]. *)
Definition continuation (a : Ascii.ascii) : bool := in_range 0x80 0xBF a.

(** Whether [b] is well-formed UTF-8, as the strict decoder of
    [bytes.decode('utf-8')] demands: no overlong form, no surrogate, nothing
    above U+10FFFF, no stray or missing continuation byte. *)
Fixpoint utf8_valid (b : string) : bool :=
  match b with
  | EmptyString => true
  | String a0 r0 =>
      if in_range 0x00 0x7F a0 then utf8_valid r0
      else
        match r0 with
        | EmptyString => false
        | String a1 r1 =>
            if in_range 0xC2 0xDF a0 then continuation a1 && utf8_valid r1
            else
              match r1 with
              | EmptyString => false
              | String a2 r2 =>
                  if in_range 0xE0 0xEF a0 then
                    (if in_range 0xE0 0xE0 a0 then in_range 0xA0 0xBF a1
                     else if in_range 0xED 0xED a0 then in_range 0x80 0x9F a1
                     else continuation a1)
                    && continuation a2 && utf8_valid r2
                  else
                    match r2 with
                    | EmptyString => false
                    | String a3 r3 =>
                        in_range 0xF0 0xF4 a0
                        && (if in_range 0xF0 0xF0 a0 then in_range 0x90 0xBF a1
                            else if in_range 0xF4 0xF4 a0 then in_range 0x80 0x8F a1
                            else continuation a1)
                        && continuation a2 && continuation a3 && utf8_valid r3
                    end
              end
        end
  end.

Definition UnicodeDecodeError : exn := Exception "UnicodeDecodeError".

(** [b.decode('utf-8')]: the text, which is held as its UTF-8 bytes, or the
    exception. *)
Definition decode_utf8 (b : string) : outcome string :=
  if utf8_valid b then Normal b else Raised UnicodeDecodeError.

(** A detection as [pyzbar.decode] hands it over: [obj.data] (bytes),
    [obj.polygon], and the value [time.time()] has while the loop body
    handles it. *)
Record Scanned := mkScanned { payload : string; outline : list Point; stamp : Q }.

(** One pass of the [while True] loop with the detections as handed over. *)
Inductive shot :=
| NoShot
| Shot (objs : list Scanned) (key : Z).

(** The object passed as [update_callback]: its truth value (what
    [if update_callback:] sees) and what calling it does. *)
Record callback (cb_state : Type) := mkCallback {
  cb_truth : bool;
  cb_call : cb_state -> string -> outcome unit * cb_state
}.
Arguments mkCallback {cb_state} _ _.
Arguments cb_truth {cb_state} _.
Arguments cb_call {cb_state} _.

(** The callback that passes the test [if update_callback:] of lines 31 and
    62, if there is one. *)
Definition truthy {cb_state : Type} (update_callback : option (callback cb_state))
    : option (cb_state -> string -> outcome unit * cb_state) :=
  match update_callback with
  | Some cb => if cb_truth cb then Some (cb_call cb) else None
  | None => None
  end.

(** The functions of the file from the bytes on: line 50 may raise, and the
    callback is the argument as given. *)
Module Full.

Section Full.

Context {cb_state : Type}.

(** The argument [update_callback]: [None], or any object. *)
Variable update_callback : option (callback cb_state).

(** [cv2.convexHull(points_array, clockwise=True)]. *)
Variable convexHull : list (Z * Z) -> list (Z * Z).

(** Lines 50-84: line 50 decodes the payload, outside any [try]; lines 52-84
    are [Scanner.for_body] on the text. *)
Definition for_body (st : scanner) (r : Scanned) : M cb_state scanner :=
  data <- lift (decode_utf8 (payload r));;
  Scanner.for_body (truthy update_callback) convexHull st
    (mkSighting (mkDecoded data (outline r)) (stamp r)).

(** Lines 49-84. *)
Fixpoint for_objs (objs : list Scanned) (st : scanner) : M cb_state scanner :=
  match objs with
  | [] => ret st
  | r :: objs' => st' <- for_body st r;; for_objs objs' st'
  end.

(** Lines 39-95. *)
Fixpoint while_loop (script : list shot) (st : scanner)
    : M cb_state (status * scanner) :=
  match script with
  | [] => ret (Running, st)
  | NoShot :: _ =>
      emit Read;;
      emit (Println MsgStreamEnd);;
      ret (Exited, st)
  | Shot objs key :: script' =>
      emit Read;;
      st' <- for_objs objs st;;
      emit Imshow;;
      if (Z.land key 255 =? ord_q)%Z then ret (Exited, st')
      else while_loop script' st'
  end.

(** Lines 15-101. *)
Definition scan_qr_codes (opened : bool) (script : list shot)
    : M cb_state (option (list string)) :=
  emit VideoCapture;;
  if negb opened then
    emit (Println MsgCameraError);;
    ret (Some [])
  else
    emit (Println MsgCameraOpened);;
    emit (Println MsgPressQ);;
    match truthy update_callback with
    | Some _ => emit (Println MsgRealTime)
    | None => ret tt
    end;;
    r <- while_loop script init_scanner;;
    match r with
    | (Running, _) => ret None
    | (Exited, st) =>
        emit Release;;
        emit DestroyAllWindows;;
        emit (Println (MsgStopped (length (newly_scanned_data st))));;
        ret (Some (newly_scanned_data st))
    end.

End Full.

(** Lines 128-139, with the scanner from the bytes on: an exception of the
    scanner ends the script body. *)
Definition main {image : Type} (convexHull : list (Z * Z) -> list (Z * Z))
    (cam : camera image) (opened : bool) (script : list shot)
    : outcome (option unit) * list main_event :=
  let '(probe, _, l0) := test_camera cam tt in
  match probe with
  | Raised e => (Raised e, Say MsgTesting :: map Inner l0)
  | Normal true =>
      let '(scan, _, l1) :=
        scan_qr_codes (cb_state := unit) None convexHull opened script tt in
      match scan with
      | Raised e =>
          (Raised e, Say MsgTesting :: map Inner l0 ++ Say MsgStarting :: map Inner l1)
      | Normal None =>
          (Normal None,
           Say MsgTesting :: map Inner l0 ++ Say MsgStarting :: map Inner l1)
      | Normal (Some scanned_data) =>
          (Normal (Some tt),
           Say MsgTesting :: map Inner l0 ++ Say MsgStarting :: map Inner l1
             ++ report scanned_data)
      end
  | Normal false =>
      (Normal (Some tt), Say MsgTesting :: map Inner l0 ++ [Say MsgTestFailed])
  end.

End Full.

(** The detection of a payload that decodes, as a text. *)
Definition text_of (r : Scanned) : sighting :=
  mkSighting (mkDecoded (payload r) (outline r)) (stamp r).

(** A script of shots as a script of captures, every payload taken as text. *)
Definition texts (script : list shot) : list capture :=
  map (fun sh => match sh with
                 | NoShot => NoFrame
                 | Shot objs key => Frame (map text_of objs) key
                 end) script.

(** The detections of a frame that the loop body handles: those before the
    first payload that does not decode. *)
Fixpoint good_prefix (objs : list Scanned) : list sighting :=
  match objs with
  | [] => []
  | r :: objs' => if utf8_valid (payload r) then text_of r :: good_prefix objs' else []
  end.

(** Whether every payload of a frame decodes. *)
Definition all_good (objs : list Scanned) : bool :=
  forallb (fun r => utf8_valid (payload r)) objs.

(** The detections a session handles: those of the frames read, up to the
    exit of the loop or to the first payload that does not decode. *)
Fixpoint reached (script : list shot) : list sighting :=
  match script with
  | [] => []
  | NoShot :: _ => []
  | Shot objs key :: script' =>
      good_prefix objs
        ++ (if all_good objs
            then if (Z.land key 255 =? ord_q)%Z then [] else reached script'
            else [])
  end.

(** Whether the session meets a payload that does not decode before the loop
    leaves. *)
Fixpoint crashes (script : list shot) : bool :=
  match script with
  | [] => false
  | NoShot :: _ => false
  | Shot objs key :: script' =>
      negb (all_good objs)
      || (if (Z.land key 255 =? ord_q)%Z then false else crashes script')
  end.

(** Whether the loop leaves by a failed read or a 'q', having met no payload
    that does not decode. *)
Fixpoint returns (script : list shot) : bool :=
  match script with
  | [] => false
  | NoShot :: _ => true
  | Shot objs key :: script' =>
      all_good objs
      && (if (Z.land key 255 =? ord_q)%Z then true else returns script')
  end.

(** The frames a session displays: those read before the loop leaves whose
    payloads all decode, up to the first frame with one that does not. *)
Fixpoint frames_shown (script : list shot) : list (list sighting) :=
  match script with
  | [] => []
  | NoShot :: _ => []
  | Shot objs key :: script' =>
      if all_good objs
      then good_prefix objs
             :: (if (Z.land key 255 =? ord_q)%Z then [] else frames_shown script')
      else []
  end.

(** ** Sample inputs *)

Definition square : list Point :=
  [mkPoint 0 0; mkPoint 4 0; mkPoint 4 4; mkPoint 0 4].

Definition hexagon : list Point :=
  [mkPoint 1 0; mkPoint 3 0; mkPoint 4 2; mkPoint 3 4; mkPoint 1 4; mkPoint 0 2].

(** The text [d] decoded at clock reading [t]. *)
Definition sample (d : string) (t : Q) : sighting :=
  mkSighting (mkDecoded d square) t.

(** A caller that passes no callback. *)
Definition no_callback : option (unit -> string -> outcome unit * unit) := None.


(** A camera that does not open. *)
Definition closed_camera : camera unit :=
  mkCamera (Normal tt) (Normal false) (Normal (false, None)) (Normal tt).

(** A camera that opens and delivers a frame. *)
Definition good_camera : camera unit :=
  mkCamera (Normal tt) (Normal true) (Normal (true, Some tt)) (Normal tt).

(** A camera that opens and then delivers nothing. *)
Definition stalled_camera : camera unit :=
  mkCamera (Normal tt) (Normal true) (Normal (false, None)) (Normal tt).

(** A camera that opens and whose read raises. *)
Definition broken_camera : camera unit :=
  mkCamera (Normal tt) (Normal true) (Raised (Exception "read failed")) (Normal tt).

(** A payload that is not UTF-8: the single byte 0xFF. *)
Definition bad_payload : string := String (Ascii.ascii_of_N 255) EmptyString.

(** The payload [b] detected at clock reading [t]. *)
Definition raw_sample (b : string) (t : Q) : Scanned := mkScanned b square t.


(** A callable object that is false, such as one whose [__len__] is 0. *)
Definition falsy_object : option (callback nat) :=
  Some (mkCallback false (fun n d => (Normal tt, S n))).

(** A stand-in for the hull routine: it returns the points in reverse
    (clockwise for a counter-clockwise input). *)
Definition sample_hull (pts : list (Z * Z)) : list (Z * Z) := rev pts.

(** ** Lemmas *)

Lemma Qltb_lt (a b : Q) : Qltb a b = true <-> (a < b)%Q.
Proof.
  unfold Qltb. rewrite negb_true_iff, <- not_true_iff_false, Qle_bool_iff.
  split; [apply Qnot_le_lt | apply Qlt_not_le].
Qed.

Lemma Qltb_nlt (a b : Q) : Qltb a b = false <-> ¬ (a < b)%Q.
Proof. rewrite <- Qltb_lt. destruct (Qltb a b); intuition congruence. Qed.

Lemma acceptances_app (t : Q) (l1 l2 : list event) :
  acceptances t (l1 ++ l2) = acceptances t l1 ++ acceptances (latest_clock t l1) l2.
Proof.
  revert t. induction l1 as [|ev l1 IH]; intros t; [done|].
  destruct ev as [| | |m|t'| | | | |]; simpl; try apply IH.
  destruct m; simpl; try apply IH. by rewrite IH.
Qed.

Lemma latest_clock_app (t : Q) (l1 l2 : list event) :
  latest_clock t (l1 ++ l2) = latest_clock (latest_clock t l1) l2.
Proof.
  revert t. induction l1 as [|ev l1 IH]; intros t; [done|].
  destruct ev; simpl; apply IH.
Qed.

Lemma drawn_app (l1 l2 : list event) : drawn (l1 ++ l2) = drawn l1 ++ drawn l2.
Proof.
  induction l1 as [|ev l1 IH]; [done|].
  destruct ev; simpl; by rewrite ?IH.
Qed.

Lemma releases_app (l1 l2 : list event) : releases (l1 ++ l2) = releases l1 + releases l2.
Proof.
  induction l1 as [|ev l1 IH]; [done|].
  destruct ev; simpl; by rewrite ?IH.
Qed.

Lemma trail_app (a b c : scanner) (l1 l2 : list (string * Q)) :
  trail a l1 b -> trail b l2 c -> trail a (l1 ++ l2) c.
Proof.
  induction 1 as [|st d t acc st' Hd Ht _ IH]; intros H2; [done|].
  simpl. constructor; auto.
Qed.

Lemma trail_newly (a b : scanner) (acc : list (string * Q)) :
  trail a acc b -> newly_scanned_data b = newly_scanned_data a ++ acc.*1.
Proof.
  induction 1 as [|st d t acc st' Hd Ht _ IH]; simpl.
  - by rewrite app_nil_r.
  - rewrite IH. simpl. by rewrite <- app_assoc.
Qed.

Lemma trail_scanned (a b : scanner) (acc : list (string * Q)) :
  trail a acc b -> scanned_codes b = scanned_codes a ∪ list_to_set acc.*1.
Proof.
  induction 1 as [|st d t acc st' Hd Ht _ IH]; simpl.
  - set_solver.
  - rewrite IH. simpl. set_solver.
Qed.

Lemma trail_NoDup (a b : scanner) (acc : list (string * Q)) :
  trail a acc b -> NoDup acc.*1 ∧ ∀ d, d ∈ acc.*1 -> d ∉ scanned_codes a.
Proof.
  induction 1 as [|st d t acc st' Hd Ht _ [IH1 IH2]]; simpl.
  - split; [constructor | set_solver].
  - split.
    + constructor; [|done]. intros Hin. apply IH2 in Hin. set_solver.
    + intros d' [->|Hin]%elem_of_cons; [done|]. apply IH2 in Hin. set_solver.
Qed.

(** Every acceptance of a trail is more than 2 seconds after where the trail
    starts, and the trail ends at or after each of them. *)
Lemma trail_bounds (a b : scanner) (acc : list (string * Q)) :
  trail a acc b ->
  (last_scan_time a <= last_scan_time b)%Q ∧
  ∀ d t, (d, t) ∈ acc -> (2 < t - last_scan_time a)%Q ∧ (t <= last_scan_time b)%Q.
Proof.
  induction 1 as [|st d t acc st' Hd Ht _ [IH1 IH2]]; simpl in *.
  - split; [lra | set_solver].
  - split; [lra|].
    intros d' t' [Heq|Hin]%elem_of_cons.
    + injection Heq as -> ->. split; [done | lra].
    + destruct (IH2 _ _ Hin). split; lra.
Qed.

Lemma trail_gap (a b : scanner) (acc : list (string * Q)) :
  trail a acc b ->
  ∀ i j di ti dj tj,
    i < j -> acc !! i = Some (di, ti) -> acc !! j = Some (dj, tj) ->
    (2 < tj - ti)%Q.
Proof.
  induction 1 as [|st d t acc st' Hd Ht Htr IH]; intros i j di ti dj tj Hij Hi Hj.
  - done.
  - destruct j as [|j]; [lia|]. simpl in Hj.
    destruct i as [|i]; simpl in Hi.
    + injection Hi as -> ->.
      apply trail_bounds in Htr as [_ Hb].
      apply (Hb dj tj). by eapply list_elem_of_lookup_2.
    + eapply IH; [|done..]. lia.
Qed.

Section ScanFacts.

Context {cb_state : Type}.
Variable update_callback : option (cb_state -> string -> outcome unit * cb_state).
Variable convexHull : list (Z * Z) -> list (Z * Z).

Local Abbreviation for_body := (for_body update_callback convexHull).
Local Abbreviation for_objs := (for_objs update_callback convexHull).
Local Abbreviation while_loop := (while_loop update_callback convexHull).
Local Abbreviation scan_qr_codes := (scan_qr_codes update_callback convexHull).
Local Abbreviation body_run := (body_run update_callback convexHull).
Local Abbreviation callback_run := (callback_run update_callback).
Local Abbreviation overlay := (overlay convexHull).
Local Abbreviation greeting := (greeting update_callback).

Lemma overlay_branches (d : Decoded) :
  (if (4 <? length (polygon d))%nat
   then emit (Polylines (convexHull (points_array (polygon d))))
   else emit (Polylines (points_array (polygon d))))
  = emit (S:=cb_state) (Polylines (overlay d)).
Proof.
  unfold overlay, points_array.
  destruct (Nat.ltb_spec 4 (length (polygon d))); case_decide; (done || lia).
Qed.

Lemma callback_total (c : cb_state) (d : string) :
  match update_callback with
  | Some f =>
      ∃ c' mid, callback_run c d c' mid ∧
        try_except
          (emit (Println (MsgCalling d));; call_callback f d;; emit (Println MsgUpdateOk))
          (fun e => emit (Println (MsgUpdateError e))) c = (Normal tt, c', mid)
  | None => callback_run c d c []
  end.
Proof.
  destruct update_callback as [f|] eqn:Hcb; [|by constructor].
  destruct (f c d) as [[[]|e] c'] eqn:Hf.
  - exists c', [Println (MsgCalling d); Callback d; Println MsgUpdateOk].
    split; [by eapply cb_returns|].
    unfold try_except, bind, emit, call_callback. by rewrite Hf.
  - exists c', [Println (MsgCalling d); Callback d; Println (MsgUpdateError e)].
    split; [by eapply cb_raises|].
    unfold try_except, bind, emit, call_callback. by rewrite Hf.
Qed.

(** The loop body always takes one of the three ways. *)
Lemma for_body_run (st : scanner) (s : sighting) (c : cb_state) :
  body_run st s c (for_body st s c).
Proof.
  unfold for_body. cbv zeta.
  rewrite (overlay_branches (obj s)).
  destruct (decide (data (obj s) ∉ scanned_codes st)) as [Hnew|Hseen].
  - destruct (Qltb 2 (now s - last_scan_time st)) eqn:Hq.
    + pose proof (callback_total c (data (obj s))) as Hcb.
      destruct update_callback as [f|].
      * destruct Hcb as (c' & mid & Hrun & Heq).
        unfold time_time, play_beep, bind, emit, ret in *. rewrite Hq, Heq.
        simpl. rewrite <- !app_assoc. simpl.
        apply run_accepted; [split; [done | by apply Qltb_lt] | done].
      * unfold time_time, play_beep, bind, emit, ret in *. rewrite Hq.
        simpl.
        apply (run_accepted _ _ _ _ _ c []); [split; [done | by apply Qltb_lt] | done].
    + unfold time_time, bind, emit, ret. rewrite Hq. simpl.
      apply run_debounced; [done | by apply Qltb_nlt].
  - unfold bind, emit, ret. simpl.
    apply run_seen. by apply dec_stable.
Qed.

Lemma callback_run_quiet (c c' : cb_state) (d : string) (mid : list event) :
  callback_run c d c' mid ->
  drawn mid = [] ∧ releases mid = 0 ∧
  ∀ t, acceptances t mid = [] ∧ latest_clock t mid = t.
Proof. by destruct 1. Qed.

(** What one pass through the loop body leaves behind, whichever way it
    takes. *)
Lemma body_run_summary (st : scanner) (s : sighting) (c : cb_state) r :
  body_run st s c r ->
  ∃ st' c' l, r = (Normal st', c', l) ∧
    drawn l = [overlay (obj s)] ∧ releases l = 0 ∧
    ∀ t, trail st (acceptances t l) st'.
Proof.
  destruct 1 as [Hseen|Hnew Hq|c' mid [Hnew Hq] Hcb].
  - eexists _, _, _. split; [done|]. repeat split. intros t. constructor.
  - eexists _, _, _. split; [done|]. repeat split. intros t. constructor.
  - destruct (callback_run_quiet _ _ _ _ Hcb) as (Hd & Hr & Hacc).
    eexists _, _, _. split; [done|]. simpl.
    rewrite drawn_app, releases_app, Hd, Hr. repeat split.
    intros t. rewrite acceptances_app.
    destruct (Hacc (now s)) as [-> ->]. simpl.
    constructor; [done..|constructor].
Qed.

Lemma for_objs_run (objs : list sighting) (st : scanner) (c : cb_state) :
  ∃ st' c' l, for_objs objs st c = (Normal st', c', l) ∧
    drawn l = (overlay ∘ obj) <$> objs ∧ releases l = 0 ∧
    ∀ t, trail st (acceptances t l) st'.
Proof.
  revert st c. induction objs as [|s objs IH]; intros st c.
  - exists st, c, []. repeat split. intros t. constructor.
  - destruct (body_run_summary _ _ _ _ (for_body_run st s c))
      as (st1 & c1 & l1 & Hb & Hd1 & Hr1 & Ht1).
    destruct (IH st1 c1) as (st2 & c2 & l2 & Hf & Hd2 & Hr2 & Ht2).
    exists st2, c2, (l1 ++ l2). simpl. unfold bind at 1. rewrite Hb, Hf.
    rewrite drawn_app, releases_app, Hd1, Hd2, Hr1, Hr2. repeat split.
    intros t. rewrite acceptances_app. by eapply trail_app.
Qed.

Lemma while_loop_run (script : list capture) (st : scanner) (c : cb_state) :
  ∃ st' c' l,
    while_loop script st c
      = (Normal (if leaves script then Exited else Running, st'), c', l) ∧
    drawn l = (overlay ∘ obj) <$> handled script ∧ releases l = 0 ∧
    ∀ t, trail st (acceptances t l) st'.
Proof.
  revert st c. induction script as [|[|objs key] script IH]; intros st c.
  - exists st, c, []. repeat split. intros t. constructor.
  - exists st, c, [Read; Println MsgStreamEnd]. repeat split. intros t. constructor.
  - destruct (for_objs_run objs st c) as (st1 & c1 & l1 & Hf & Hd1 & Hr1 & Ht1).
    simpl. unfold bind at 1. unfold emit at 1. unfold bind at 1. rewrite Hf.
    unfold bind at 1. unfold emit at 1.
    destruct (Z.land key 255 =? ord_q)%Z.
    + exists st1, c1, ([Read] ++ l1 ++ [Imshow] ++ []). split; [done|].
      rewrite !drawn_app, !releases_app, Hd1, Hr1, !app_nil_r. repeat split.
      intros t. rewrite !acceptances_app. simpl. rewrite app_nil_r. apply Ht1.
    + destruct (IH st1 c1) as (st2 & c2 & l2 & Hw & Hd2 & Hr2 & Ht2).
      rewrite Hw.
      exists st2, c2, ([Read] ++ l1 ++ [Imshow] ++ l2). split; [done|].
      rewrite !drawn_app, !releases_app, Hd1, Hd2, Hr1, Hr2, fmap_app.
      repeat split.
      intros t. rewrite !acceptances_app. simpl. by eapply trail_app.
Qed.

(** A session with an open camera, in terms of its loop. *)
Lemma scan_eq (script : list capture) (c : cb_state) :
  scan_qr_codes true script c =
  match while_loop script init_scanner c with
  | (Normal (Running, _), c', l) => (Normal None, c', greeting ++ l)
  | (Normal (Exited, st), c', l) =>
      (Normal (Some (newly_scanned_data st)), c',
       greeting ++ l ++ farewell (newly_scanned_data st))
  | (Raised e, c', l) => (Raised e, c', greeting ++ l)
  end.
Proof.
  unfold scan_qr_codes, greeting. simpl. unfold bind, emit, ret.
  destruct update_callback;
    destruct (Scanner.while_loop _ _ script init_scanner c)
      as [[[[[] st']|e] c'] l]; simpl; by rewrite ?app_nil_r.
Qed.

Lemma greeting_quiet :
  drawn greeting = [] ∧ releases greeting = 0 ∧
  acceptances 0 greeting = [] ∧ latest_clock 0 greeting = 0%Q.
Proof. unfold greeting. by destruct update_callback. Qed.

(** A session with an open camera: the result is the list accepted so far,
    once the loop has left; the log draws one overlay per handled detection
    and its acceptances form a trail from the initial locals. *)
Lemma scan_run (script : list capture) (c : cb_state) :
  ∃ st' c' l,
    scan_qr_codes true script c
      = (Normal (if leaves script then Some (newly_scanned_data st') else None),
         c', l) ∧
    drawn l = (overlay ∘ obj) <$> handled script ∧
    releases l = (if leaves script then 1 else 0) ∧
    trail init_scanner (acceptances 0 l) st'.
Proof.
  destruct (while_loop_run script init_scanner c) as (st' & c' & l & Hw & Hd & Hr & Ht).
  destruct greeting_quiet as (Hdg & Hrg & Hag & Hcg).
  rewrite scan_eq, Hw.
  destruct (leaves script); eexists st', c', _; (split; [done|]).
  - rewrite !drawn_app, !releases_app, !acceptances_app, Hd, Hr, Hdg, Hrg, Hag, Hcg.
    simpl. rewrite ?app_nil_r. split_and!; [done | lia | apply Ht].
  - rewrite !drawn_app, !releases_app, !acceptances_app, Hd, Hr, Hdg, Hrg, Hag, Hcg.
    simpl. split_and!; [done | lia | apply Ht].
Qed.

Lemma scan_closed (script : list capture) (c : cb_state) :
  scan_qr_codes false script c
    = (Normal (Some []), c, [VideoCapture; Println MsgCameraError]).
Proof. reflexivity. Qed.

(** Destructs the run of the loop body on [st], [s], [c] into its three
    ways. *)
Ltac body_cases st s c :=
  let H := fresh "Hrun" in
  let Heq := fresh "Hbody" in
  pose proof (for_body_run st s c) as H;
  inversion H as [Hseen Heq | Hnew Hq Heq | c' mid [Hnew Hq] Hcb Heq];
  clear H.

(** ** The accept rule *)

Lemma body_rule (st : scanner) (s : sighting) (c : cb_state) :
  (Println (MsgNewCode (data (obj s))) ∈ (for_body st s c).2 ↔ fresh st s)
  ∧ (fresh st s -> (for_body st s c).1.1 = Normal (accept st s))
  ∧ (¬ fresh st s -> (for_body st s c).1.1 = Normal st).
Proof.
  unfold fresh. body_cases st s c; simpl.
  - split_and!; [|tauto|done].
    split; [|tauto].
    intros Hin. apply list_elem_of_singleton in Hin. discriminate.
  - split_and!; [|tauto|done].
    split; [|tauto].
    intros [Hin|Hin%list_elem_of_singleton]%elem_of_cons; discriminate.
  - split_and!; [|done|tauto].
    split; [done|]. intros _. set_solver.
Qed.

(** C1 (as amended): for every detection, from whatever locals the loop has
    reached, the text is accepted (announced, added to the seen set, appended
    to the result, the timestamp set to the reading) if and only if it is
    not in the seen set and MORE than 2 seconds have passed since the last
    acceptance; otherwise the locals are left as they were. *)
Theorem C1_accept_rule (st : scanner) (s : sighting) (c : cb_state) :
  (Println (MsgNewCode (data (obj s))) ∈ (for_body st s c).2
     ↔ (data (obj s) ∉ scanned_codes st) ∧ (2 < now s - last_scan_time st)%Q)
  ∧ ((data (obj s) ∉ scanned_codes st) ∧ (2 < now s - last_scan_time st)%Q ->
     (for_body st s c).1.1 = Normal (accept st s))
  ∧ (¬ ((data (obj s) ∉ scanned_codes st) ∧ (2 < now s - last_scan_time st)%Q) ->
     (for_body st s c).1.1 = Normal st).
Proof.
  body_cases st s c; simpl.
  - (* already seen *)
    split_and!; [|tauto|done].
    split; [|tauto].
    intros Hin. apply list_elem_of_singleton in Hin. discriminate.
  - (* unseen, inside the window *)
    split_and!; [|tauto|done].
    split; [|tauto].
    intros [Hin|Hin%list_elem_of_singleton]%elem_of_cons; discriminate.
  - (* unseen, window over: accepted *)
    split_and!; [|done|tauto].
    split; [done|]. intros _. set_solver.
Qed.

(** C2: a text in the seen set is never accepted (the body leaves the locals
    and the callback alone and only draws); the seen set only grows along
    the loop and holds every text accepted on the way; and in every session
    no text is accepted twice, so the returned list has no duplicates. *)
Theorem C2_seen_never_accepted_again :
  (∀ st s c, data (obj s) ∈ scanned_codes st ->
     for_body st s c = (Normal st, c, [Polylines (overlay (obj s))]))
  ∧ (∀ script st c, ∃ status st' c' l,
       while_loop script st c = (Normal (status, st'), c', l) ∧
       scanned_codes st ⊆ scanned_codes st' ∧
       ∀ d t0, d ∈ (acceptances t0 l).*1 -> d ∈ scanned_codes st')
  ∧ (∀ opened script c,
       NoDup (acceptances 0 (scan_qr_codes opened script c).2).*1)
  ∧ (∀ opened script c res,
       (scan_qr_codes opened script c).1.1 = Normal (Some res) -> NoDup res).
Proof.
  split_and!.
  - intros st s c Hin. body_cases st s c; [done|done|]. by destruct Hnew.
  - intros script st c.
    destruct (while_loop_run script st c) as (st' & c' & l & Hw & _ & _ & Ht).
    eexists _, st', c', l. split; [done|]. split.
    + rewrite (trail_scanned _ _ _ (Ht 0%Q)). set_solver.
    + intros d t0 Hd. rewrite (trail_scanned _ _ _ (Ht t0)). set_solver.
  - intros [] script c.
    + destruct (scan_run script c) as (st' & c' & l & -> & _ & _ & Ht).
      by apply trail_NoDup in Ht as [? _].
    + rewrite scan_closed. constructor.
  - intros [] script c res.
    + destruct (scan_run script c) as (st' & c' & l & -> & _ & _ & Ht).
      destruct (leaves script); [|done]. intros [= <-].
      rewrite (trail_newly _ _ _ Ht). by apply trail_NoDup in Ht as [? _].
    + rewrite scan_closed. intros [= <-]. constructor.
Qed.

(** C3: in every session, whatever the texts, a later acceptance carries a
    timestamp at least 2 seconds (in fact more than 2 seconds) after that of
    any earlier one. *)
Theorem C3_global_debounce (opened : bool) (script : list capture) (c : cb_state)
    (i j : nat) (di dj : string) (ti tj : Q) :
  i < j ->
  acceptances 0 (scan_qr_codes opened script c).2 !! i = Some (di, ti) ->
  acceptances 0 (scan_qr_codes opened script c).2 !! j = Some (dj, tj) ->
  (2 <= tj - ti)%Q ∧ (2 < tj - ti)%Q.
Proof.
  intros Hij Hi Hj.
  assert (2 < tj - ti)%Q as Hgap; [|split; [lra | done]].
  destruct opened.
  - destruct (scan_run script c) as (st' & c' & l & Heq & _ & _ & Ht).
    rewrite Heq in Hi, Hj. by eapply trail_gap.
  - by rewrite scan_closed in Hi.
Qed.

(** ** A read that fails *)

Lemma while_loop_frame (objs : list sighting) (key : Z) (script : list capture)
    (st st1 : scanner) (c c1 : cb_state) (l1 : list event) :
  for_objs objs st c = (Normal st1, c1, l1) ->
  while_loop (Frame objs key :: script) st c
    = if (Z.land key 255 =? ord_q)%Z
      then (Normal (Exited, st1), c1, Read :: l1 ++ [Imshow])
      else let '(r, c2, l2) := while_loop script st1 c1 in
           (r, c2, Read :: l1 ++ Imshow :: l2).
Proof.
  intros Hf. simpl. unfold bind at 1. unfold emit at 1. unfold bind at 1.
  rewrite Hf. unfold bind at 1. unfold emit at 1.
  destruct (Z.land key 255 =? ord_q)%Z; [done|].
  by destruct (while_loop script st1 c1) as [[r c2] l2].
Qed.

Lemma while_loop_app (pre rest : list capture) (st : scanner) (c : cb_state) :
  leaves pre = false ->
  ∃ st1 c1 l1,
    while_loop pre st c = (Normal (Running, st1), c1, l1) ∧
    while_loop (pre ++ rest) st c
      = (let '(r, c2, l2) := while_loop rest st1 c1 in (r, c2, l1 ++ l2)).
Proof.
  revert st c. induction pre as [|[|objs key] pre IH]; intros st c Hlv.
  - exists st, c, []. split; [done|]. simpl.
    by destruct (while_loop rest st c) as [[r c2] l2].
  - done.
  - simpl in Hlv. apply orb_false_iff in Hlv as [Hkey Hlv].
    destruct (for_objs_run objs st c) as (st1 & c1 & l1 & Hf & _).
    destruct (IH st1 c1 Hlv) as (st2 & c2 & l2 & Hpre & Happ).
    exists st2, c2, (Read :: l1 ++ Imshow :: l2).
    rewrite <- app_comm_cons.
    rewrite !(while_loop_frame _ _ _ _ _ _ _ _ Hf), Hkey, Hpre, Happ.
    split; [done|].
    destruct (while_loop rest st2 c2) as [[r c3] l3]. simpl.
    by rewrite <- !app_assoc.
Qed.

(** When the read after the captures [pre] fails, the session ends with the
    list that [pre] built up. *)
Lemma scan_read_failure (pre post : list capture) (c : cb_state) :
  leaves pre = false ->
  ∃ st1 c1 l1 l,
    while_loop pre init_scanner c = (Normal (Running, st1), c1, l1) ∧
    scan_qr_codes true (pre ++ NoFrame :: post) c
      = (Normal (Some (newly_scanned_data st1)), c1, l) ∧
    Println MsgStreamEnd ∈ l ∧ releases l = 1 ∧
    newly_scanned_data st1 = (acceptances 0 l).*1.
Proof.
  intros Hlv.
  destruct (while_loop_app pre (NoFrame :: post) init_scanner c Hlv)
    as (st1 & c1 & l1 & Hpre & Happ).
  destruct (while_loop_run pre init_scanner c) as (st' & c' & l' & Hw & _ & Hr & Ht).
  rewrite Hpre in Hw. injection Hw as _ <- <- <-.
  destruct greeting_quiet as (_ & Hrg & Hag & Hcg).
  change (while_loop (NoFrame :: post) st1 c1)
    with (Normal (Exited, st1), c1, [Read; Println MsgStreamEnd]) in Happ.
  exists st1, c1, l1. eexists. split; [done|].
  rewrite scan_eq, Happ. cbv beta iota. split; [done|].
  rewrite !releases_app, !acceptances_app, Hrg, Hag, Hcg, Hr. simpl.
  split_and!; [set_solver | done |].
  by rewrite !app_nil_r, (trail_newly _ _ _ (Ht 0%Q)).
Qed.

(** ** The callback guard *)

Lemma scan_never_raises (opened : bool) (script : list capture) (c : cb_state) :
  ∃ r c' l, scan_qr_codes opened script c = (Normal r, c', l) ∧
    ∀ res, r = Some res -> res = (acceptances 0 l).*1.
Proof.
  destruct opened.
  - destruct (scan_run script c) as (st' & c' & l & Heq & _ & _ & Ht).
    eexists _, c', l. split; [done|].
    intros res Hres. destruct (leaves script); [|done].
    injection Hres as <-. by rewrite (trail_newly _ _ _ Ht).
  - rewrite scan_closed. eexists _, _, _. split; [done|].
    by intros res [= <-].
Qed.

(** ** The first detection and the debounce window *)



(** C10: a text that is not in the seen set and comes within the window is
    rejected with nothing changed: same locals, same callback state, and a
    log that holds the clock reading and the overlay only (no callback, no
    beep).  A later detection of the same text, once more than 2 seconds
    have passed since the last acceptance, is accepted. *)
Theorem C10_debounce_reject_leaves_state (st : scanner) (s : sighting)
    (c : cb_state) :
  data (obj s) ∉ scanned_codes st ->
  ¬ (2 < now s - last_scan_time st)%Q ->
  for_body st s c = (Normal st, c, [Clock (now s); Polylines (overlay (obj s))])
  ∧ Forall (fun ev => notifies ev = false) (for_body st s c).2
  ∧ ∀ s' c',
      data (obj s') = data (obj s) ->
      (2 < now s' - last_scan_time st)%Q ->
      (for_body st s' c').1.1 = Normal (accept st s') ∧
      Println (MsgNewCode (data (obj s))) ∈ (for_body st s' c').2.
Proof.
  intros Hunseen Hwindow.
  assert (for_body st s c
          = (Normal st, c, [Clock (now s); Polylines (overlay (obj s))])) as Heq.
  { body_cases st s c; done. }
  split_and!.
  - done.
  - rewrite Heq. by repeat constructor.
  - intros s' c' Hsame Hlater.
    destruct (body_rule st s' c') as (Hiff & Hacc & _).
    assert (fresh st s') as Hfr by (split; [by rewrite Hsame | done]).
    split; [by apply Hacc|]. rewrite <- Hsame. by apply Hiff.
Qed.

End ScanFacts.

(** ** The camera probe *)

Section ProbeFacts.

Context {image S : Type}.

(** The probe, call by call. *)
Lemma test_camera_eq (cam : camera image) (s : S) :
  test_camera cam s =
  match cam_VideoCapture cam with
  | Raised e => (Normal false, s, [VideoCapture; Println (MsgProbeError e)])
  | Normal _ =>
      match cam_isOpened cam with
      | Raised e => (Normal false, s, [VideoCapture; Println (MsgProbeError e)])
      | Normal false => (Normal false, s, [VideoCapture])
      | Normal true =>
          match cam_read cam with
          | Raised e =>
              (Normal false, s, [VideoCapture; Read; Println (MsgProbeError e)])
          | Normal r =>
              match cam_release cam with
              | Raised e =>
                  (Normal false, s,
                   [VideoCapture; Read; Release; Println (MsgProbeError e)])
              | Normal _ =>
                  (Normal (r.1 && is_not_None r.2), s, [VideoCapture; Read; Release])
              end
          end
      end
  end.
Proof. by destruct cam as [[[]|e1] [[|]|e2] [[r fr]|e3] [[]|e4]]. Qed.

(** C6: the probe always returns a boolean, never an exception.  It returns
    True exactly when every call returned, the device reported open and the
    read gave [ret = True] with a frame that is not [None]; so it returns
    False when the device is not open, when the read reports failure or
    gives no frame, and when any of the calls raises. *)
Theorem C6_probe_result (cam : camera image) (s : S) :
  ∃ b l, test_camera cam s = (Normal b, s, l) ∧
    (b = true ↔
       cam_VideoCapture cam = Normal tt ∧
       cam_isOpened cam = Normal true ∧
       (∃ img, cam_read cam = Normal (true, Some img)) ∧
       cam_release cam = Normal tt) ∧
    (cam_isOpened cam = Normal false -> b = false) ∧
    (∀ fr, cam_read cam = Normal (false, fr) -> b = false) ∧
    (∀ r, cam_read cam = Normal (r, None) -> b = false) ∧
    (∀ e, cam_VideoCapture cam = Raised e ∨ cam_isOpened cam = Raised e ∨
          cam_read cam = Raised e ∨ cam_release cam = Raised e -> b = false).
Proof.
  rewrite test_camera_eq.
  destruct (cam_VideoCapture cam) as [[]|e1];
    [|exists false; eexists; split; [reflexivity | naive_solver]].
  destruct (cam_isOpened cam) as [[|]|e2];
    [|exists false; eexists; split; [reflexivity | naive_solver]..].
  destruct (cam_read cam) as [[r fr]|e3];
    [|exists false; eexists; split; [reflexivity | naive_solver]].
  destruct (cam_release cam) as [[]|e4];
    [|exists false; eexists; split; [reflexivity | naive_solver]].
  eexists _, _. split; [reflexivity|]. simpl.
  destruct r, fr as [img|]; simpl; naive_solver.
Qed.

(** C7 (as amended): the probe calls [cap.release()] exactly once on the
    paths on which the device opened and the read returned, whatever the
    frame; on every other path (the device did not open, or a call before the
    release raised) it returns False without calling it. *)
Theorem C7_probe_release (cam : camera image) (s : S) :
  (releases (test_camera cam s).2 = 1 ↔
     cam_VideoCapture cam = Normal tt ∧
     cam_isOpened cam = Normal true ∧
     ∃ r, cam_read cam = Normal r)
  ∧ (releases (test_camera cam s).2 ≠ 1 ->
     releases (test_camera cam s).2 = 0 ∧ (test_camera cam s).1.1 = Normal false).
Proof.
  rewrite test_camera_eq.
  destruct (cam_VideoCapture cam) as [[]|e1]; [|naive_solver].
  destruct (cam_isOpened cam) as [[|]|e2]; [|naive_solver..].
  destruct (cam_read cam) as [r|e3]; [|naive_solver].
  destruct (cam_release cam) as [[]|e4]; naive_solver.
Qed.

End ProbeFacts.

(** ** Camera failure *)

(** C5 (as amended): when the camera does not open, [scan_qr_codes] returns
    the empty list at once.  When a read fails, the loop is left and
    [scan_qr_codes] returns the texts accepted in the frames before it (the
    empty list when the first read fails), after releasing the camera.
    [test_camera] returns False when the device is not open or the read
    reports failure.  None of these ends by raising. *)
Theorem C5_camera_failure_returns :
  (∀ (cb_state : Type)
     (update_callback : option (cb_state -> string -> outcome unit * cb_state))
     (convexHull : list (Z * Z) -> list (Z * Z)) script c,
     scan_qr_codes update_callback convexHull false script c
       = (Normal (Some []), c, [VideoCapture; Println MsgCameraError]))
  ∧ (∀ (cb_state : Type)
       (update_callback : option (cb_state -> string -> outcome unit * cb_state))
       (convexHull : list (Z * Z) -> list (Z * Z)) pre post c,
       leaves pre = false ->
       ∃ st1 c1 l1 l,
         while_loop update_callback convexHull pre init_scanner c
           = (Normal (Running, st1), c1, l1) ∧
         scan_qr_codes update_callback convexHull true (pre ++ NoFrame :: post) c
           = (Normal (Some (newly_scanned_data st1)), c1, l) ∧
         Println MsgStreamEnd ∈ l ∧ releases l = 1 ∧
         newly_scanned_data st1 = (acceptances 0 l).*1)
  ∧ (∀ (cb_state : Type)
       (update_callback : option (cb_state -> string -> outcome unit * cb_state))
       (convexHull : list (Z * Z) -> list (Z * Z)) post c,
       (scan_qr_codes update_callback convexHull true (NoFrame :: post) c).1.1
         = Normal (Some []))
  ∧ (∀ (image S : Type) (cam : camera image) (s : S),
       cam_isOpened cam = Normal false ∨ (∃ fr, cam_read cam = Normal (false, fr)) ->
       (test_camera cam s).1.1 = Normal false).
Proof.
  split_and!.
  - intros. apply scan_closed.
  - intros. by apply scan_read_failure.
  - intros. rewrite scan_eq. done.
  - intros image S cam s Hfail. rewrite test_camera_eq.
    destruct (cam_VideoCapture cam) as [[]|e1]; [|done].
    destruct Hfail as [->|[fr ->]]; [done|].
    destruct (cam_isOpened cam) as [[|]|e2]; [|done..].
    by destruct (cam_release cam) as [[]|e4].
Qed.

(** ** The claims at sample inputs *)

(** C1, as first stated, fails: after "A" is accepted at 100, the unseen "B"
    read at 102, exactly 2 seconds later, is rejected. *)
Lemma C1_counterexample :
  (for_body no_callback sample_hull init_scanner (sample "A" 100) tt).1.1
    = Normal (accept init_scanner (sample "A" 100))
  ∧ (data (obj (sample "B" 102))
       ∉ scanned_codes (accept init_scanner (sample "A" 100)))
  ∧ (2 <= now (sample "B" 102) - last_scan_time (accept init_scanner (sample "A" 100)))%Q
  ∧ for_body no_callback sample_hull (accept init_scanner (sample "A" 100))
      (sample "B" 102) tt
    = (Normal (accept init_scanner (sample "A" 100)), tt,
       [Clock 102; Polylines (points_array square)])
  ∧ (scan_qr_codes no_callback sample_hull true
       [Frame [sample "A" 100] (-1); Frame [sample "B" 102] 113] tt).1.1
    = Normal (Some ["A"]).
Proof.
  split_and!.
  - vm_compute. reflexivity.
  - vm_compute. discriminate.
  - vm_compute. discriminate.
  - vm_compute. reflexivity.
  - vm_compute. reflexivity.
Qed.

Lemma C1_witness :
  (for_body no_callback sample_hull init_scanner (sample "A" 100) tt).1.1
    = Normal (accept init_scanner (sample "A" 100)).
Proof.
  apply (C1_accept_rule no_callback sample_hull init_scanner (sample "A" 100) tt).
  split; [vm_compute; discriminate | vm_compute; reflexivity].
Defined.

Lemma C2_witness :
  for_body no_callback sample_hull (accept init_scanner (sample "A" 100))
    (sample "A" 105) tt
  = (Normal (accept init_scanner (sample "A" 100)), tt,
     [Polylines (overlay sample_hull (obj (sample "A" 105)))]).
Proof.
  apply (proj1 (C2_seen_never_accepted_again no_callback sample_hull)).
  vm_compute. reflexivity.
Defined.

Lemma C3_witness :
  (2 <= 103 - 100)%Q ∧ (2 < 103 - 100)%Q.
Proof.
  apply (C3_global_debounce no_callback sample_hull true
           [Frame [sample "A" 100; sample "B" 101] (-1); Frame [sample "B" 103] 113]
           tt 0 1 "A" "B" 100%Q 103%Q).
  - lia.
  - vm_compute. reflexivity.
  - vm_compute. reflexivity.
Defined.

(** C5, as first stated, fails: a read that fails after "A" was accepted
    leaves a result list that is not empty. *)
Lemma C5_counterexample :
  scan_qr_codes no_callback sample_hull true
    [Frame [sample "A" 100] (-1); NoFrame] tt
  = (Normal (Some ["A"]), tt,
     [VideoCapture; Println MsgCameraOpened; Println MsgPressQ;
      Read; Clock 100; Println (MsgNewCode "A"); Beep;
      Polylines (points_array square); Imshow;
      Read; Println MsgStreamEnd;
      Release; DestroyAllWindows; Println (MsgStopped 1)]).
Proof. vm_compute. reflexivity. Qed.

Lemma C5_witness :
  (scan_qr_codes no_callback sample_hull true
     ([Frame [sample "A" 100] (-1)] ++ NoFrame :: []) tt).1.1
  = Normal (Some ["A"]).
Proof.
  destruct (proj1 (proj2 C5_camera_failure_returns) unit no_callback sample_hull
              [Frame [sample "A" 100] (-1)] [] tt)
    as (st1 & c1 & l1 & l & Hpre & Hscan & _).
  - vm_compute. reflexivity.
  - rewrite Hscan. simpl. vm_compute in Hpre.
    injection Hpre as <- _ _. reflexivity.
Defined.

Lemma C6_witness :
  (test_camera good_camera tt).1.1 = Normal true
  ∧ (test_camera closed_camera tt).1.1 = Normal false.
Proof.
  split.
  - destruct (C6_probe_result good_camera tt) as (b & l & Heq & Hiff & _).
    rewrite Heq. simpl. f_equal. apply Hiff.
    split_and!; [reflexivity | reflexivity | by exists tt | reflexivity].
  - destruct (C6_probe_result closed_camera tt) as (b & l & Heq & _ & Hclosed & _).
    rewrite Heq. simpl. f_equal. by apply Hclosed.
Defined.

(** C7, as first stated, fails: the probe of a camera that does not open,
    and the probe of one whose read raises, return False with no call of
    [cap.release()]. *)
Lemma C7_counterexample :
  test_camera closed_camera tt = (Normal false, tt, [VideoCapture])
  ∧ releases (test_camera closed_camera tt).2 = 0
  ∧ test_camera broken_camera tt
    = (Normal false, tt,
       [VideoCapture; Read; Println (MsgProbeError (Exception "read failed"))])
  ∧ releases (test_camera broken_camera tt).2 = 0.
Proof. split_and!; reflexivity. Qed.

Lemma C7_witness :
  releases (test_camera stalled_camera tt).2 = 1
  ∧ releases (test_camera closed_camera tt).2 = 0.
Proof.
  split.
  - apply (proj1 (C7_probe_release stalled_camera tt)).
    split_and!; [reflexivity | reflexivity | by exists (false, None)].
  - apply (proj2 (C7_probe_release closed_camera tt)). discriminate.
Defined.


Lemma C10_witness :
  for_body no_callback sample_hull (accept init_scanner (sample "A" 100))
    (sample "B" 101) tt
  = (Normal (accept init_scanner (sample "A" 100)), tt,
     [Clock 101; Polylines (overlay sample_hull (obj (sample "B" 101)))])
  ∧ (for_body no_callback sample_hull (accept init_scanner (sample "A" 100))
       (sample "B" 103) tt).1.1
    = Normal (accept (accept init_scanner (sample "A" 100)) (sample "B" 103)).
Proof.
  destruct (C10_debounce_reject_leaves_state no_callback sample_hull
              (accept init_scanner (sample "A" 100)) (sample "B" 101) tt)
    as (Hsame & _ & Hlater).
  - vm_compute. discriminate.
  - vm_compute. discriminate.
  - split; [exact Hsame|].
    apply (Hlater (sample "B" 103) tt); [reflexivity | vm_compute; reflexivity].
Defined.

(** A six-point outline is drawn as the hull of its points, a four-point one
    as it is. *)
Example overlay_hexagon :
  drawn (for_body no_callback sample_hull init_scanner
           (mkSighting (mkDecoded "H" hexagon) 100) tt).2
    = [sample_hull (points_array hexagon)]
  ∧ drawn (for_body no_callback sample_hull init_scanner (sample "S" 100) tt).2
    = [points_array square].
Proof. split; vm_compute; reflexivity. Qed.

(** * Beyond the accept rule: what a whole session does *)

Lemma callbacks_app (l1 l2 : list event) :
  callbacks (l1 ++ l2) = callbacks l1 ++ callbacks l2.
Proof.
  induction l1 as [|ev l1 IH]; [done|].
  destruct ev; simpl; by rewrite ?IH.
Qed.

Lemma beeps_app (l1 l2 : list event) : beeps (l1 ++ l2) = beeps l1 + beeps l2.
Proof.
  induction l1 as [|ev l1 IH]; [done|].
  destruct ev; simpl; by rewrite ?IH.
Qed.

Lemma captures_app (l1 l2 : list event) :
  captures (l1 ++ l2) = captures l1 + captures l2.
Proof.
  induction l1 as [|ev l1 IH]; [done|].
  destruct ev; simpl; by rewrite ?IH.
Qed.

(** Events that are neither a read nor a display only add to the polygons
    pending on the current frame. *)
Lemma shown_app_quiet (p : list (list (Z * Z))) (l1 l2 : list event) :
  Forall (fun ev => frame_event ev = false) l1 ->
  shown p (l1 ++ l2) = shown (p ++ drawn l1) l2.
Proof.
  intros Hq. revert p. induction Hq as [|ev l1 Hev _ IH]; intros p; simpl.
  - by rewrite app_nil_r.
  - destruct ev; try discriminate; simpl; rewrite IH; try done.
    by rewrite <- app_assoc.
Qed.

Lemma accepted_of_app (st : scanner) (ss1 ss2 : list sighting) :
  accepted_of st (ss1 ++ ss2)
  = accepted_of st ss1 ++ accepted_of (foldl step st ss1) ss2.
Proof.
  revert st. induction ss1 as [|s ss1 IH]; intros st; [done|].
  simpl. by rewrite IH, app_assoc.
Qed.

Lemma leaves_app (pre post : list capture) :
  leaves (pre ++ post) = leaves pre || (negb (leaves pre) && leaves post).
Proof.
  induction pre as [|[|objs key] pre IH]; simpl; [by destruct (leaves post) | done |].
  rewrite IH. by destruct (Z.land key 255 =? ord_q)%Z.
Qed.

(** [key & 0xFF] is the remainder of [key] modulo 256. *)
Lemma low_byte (key : Z) : Z.land key 255 = (key mod 256)%Z.
Proof. change 255%Z with (Z.ones 8). by rewrite Z.land_ones. Qed.

(** Events that display nothing add nothing to what the window shows. *)
Lemma shown_app_tail (p : list (list (Z * Z))) (l1 l2 : list event) :
  (∀ q, shown q l2 = []) -> shown p (l1 ++ l2) = shown p l1.
Proof.
  intros Htail. revert p. induction l1 as [|ev l1 IH]; intros p; simpl; [done|].
  destruct ev; simpl; by rewrite ?IH.
Qed.

(** The fold walks a trail: its acceptances lead from [st] to the locals it
    ends with. *)
Lemma fold_trail (st : scanner) (ss : list sighting) :
  trail st (accepted_of st ss) (foldl step st ss).
Proof.
  revert st. induction ss as [|s ss IH]; intros st; [constructor|].
  simpl. specialize (IH (step st s)). unfold step in *.
  destruct (decide (data (obj s) ∉ scanned_codes st)) as [Hnew|Hseen]; [|done].
  destruct (Qltb 2 (now s - last_scan_time st)) eqn:Hq; [|done].
  simpl. constructor; [done | by apply Qltb_lt | done].
Qed.

Section SessionFacts.

Context {cb_state : Type}.
Variable update_callback : option (cb_state -> string -> outcome unit * cb_state).
Variable convexHull : list (Z * Z) -> list (Z * Z).

Local Abbreviation for_body := (for_body update_callback convexHull).
Local Abbreviation for_objs := (for_objs update_callback convexHull).
Local Abbreviation while_loop := (while_loop update_callback convexHull).
Local Abbreviation scan_qr_codes := (scan_qr_codes update_callback convexHull).
Local Abbreviation overlay := (overlay convexHull).
Local Abbreviation greeting := (greeting update_callback).
Local Abbreviation callback_state := (callback_state update_callback).
Local Abbreviation effects := (effects update_callback).

Lemma effects_nil (st : scanner) (c : cb_state) : effects st [] c c [].
Proof.
  split; try done.
  - by destruct update_callback.
  - unfold callback_state. by destruct update_callback.
Qed.

Lemma effects_app (st : scanner) (ss1 ss2 : list sighting) (c c1 c2 : cb_state)
    (l1 l2 : list event) :
  effects st ss1 c c1 l1 ->
  effects (foldl step st ss1) ss2 c1 c2 l2 ->
  effects st (ss1 ++ ss2) c c2 (l1 ++ l2).
Proof.
  intros [Ha1 Hc1 Hs1 Hb1 Hr1 Hv1] [Ha2 Hc2 Hs2 Hb2 Hr2 Hv2].
  split.
  - intros t. by rewrite acceptances_app, Ha1, Ha2, accepted_of_app.
  - rewrite callbacks_app, Hc1, Hc2, accepted_of_app, fmap_app.
    by destruct update_callback.
  - rewrite Hs2, Hs1, accepted_of_app, fmap_app. unfold callback_state.
    destruct update_callback; [|done]. by rewrite foldl_app.
  - by rewrite beeps_app, Hb1, Hb2, accepted_of_app, length_app.
  - by rewrite releases_app, Hr1, Hr2.
  - by rewrite captures_app, Hv1, Hv2.
Qed.

(** Events outside the loop body leave the effects as they are. *)
Lemma effects_aside (st : scanner) (c : cb_state) (ev : event) :
  ev = Read ∨ ev = Imshow ∨ ev = Println MsgStreamEnd ->
  effects st [] c c [ev].
Proof.
  intros Hev.
  split; try (by destruct Hev as [-> | [-> | ->] ]).
  - destruct Hev as [-> | [-> | ->] ]; by destruct update_callback.
  - unfold callback_state. by destruct update_callback.
Qed.

Lemma effects_frame (st : scanner) (ss : list sighting) (c c' : cb_state)
    (l : list event) (ev : event) :
  ev = Read ∨ ev = Imshow ∨ ev = Println MsgStreamEnd ->
  effects st ss c c' l -> effects st ss c c' (ev :: l) ∧ effects st ss c c' (l ++ [ev]).
Proof.
  intros Hev He. split.
  - apply (effects_app st [] ss c c c' [ev] l); [by apply effects_aside | done].
  - rewrite <- (app_nil_r ss).
    apply (effects_app st ss [] c c' c' l [ev]); [done | by apply effects_aside].
Qed.

(** One pass of the loop body, in terms of [step] and [accepted_of]. *)
Lemma body_effects (st : scanner) (s : sighting) (c : cb_state) :
  ∃ c' l,
    for_body st s c = (Normal (step st s), c', l) ∧
    effects st [s] c c' l ∧
    drawn l = [overlay (obj s)] ∧
    Forall (fun ev => frame_event ev = false) l.
Proof.
  pose proof (for_body_run update_callback convexHull st s c) as Hrun.
  unfold step, callback_state.
  inversion Hrun as [Hseen Heq | Hnew Hq Heq | c' mid [Hnew Hq] Hcb Heq];
    clear Hrun Heq.
  - rewrite decide_False by tauto.
    eexists _, _. split; [reflexivity|].
    split_and!; [| done | by repeat constructor].
    split; simpl; rewrite ?decide_False by tauto; try done;
      by destruct update_callback.
  - apply Qltb_nlt in Hq as Hqb.
    rewrite decide_True, Hqb by done.
    eexists _, _. split; [reflexivity|].
    split_and!; [| done | by repeat constructor].
    split; simpl; rewrite ?decide_True, ?Hqb by done; try done;
      by destruct update_callback.
  - apply Qltb_lt in Hq as Hqb.
    rewrite decide_True, Hqb by done.
    eexists _, _. split; [reflexivity|].
    pose proof (callback_run_quiet update_callback _ _ _ _ Hcb) as (Hd & Hr & Hacc).
    destruct (Hacc (now s)) as [Ha Hl].
    split_and!.
    + split; simpl; rewrite ?decide_True, ?Hqb by done; simpl.
      * intros t. by rewrite acceptances_app, Ha.
      * rewrite callbacks_app. simpl. rewrite app_nil_r.
        destruct Hcb as [Hnone|f c'' Hsome Hret|f e c'' Hsome Hraise];
          by rewrite ?Hnone, ?Hsome.
      * destruct Hcb as [Hnone|f c'' Hsome Hret|f e c'' Hsome Hraise];
          rewrite ?Hnone, ?Hsome; simpl; by rewrite ?Hret, ?Hraise.
      * rewrite beeps_app. simpl.
        by destruct Hcb as [Hnone|f c'' Hsome Hret|f e c'' Hsome Hraise].
      * by rewrite releases_app, Hr.
      * rewrite captures_app.
        by destruct Hcb as [Hnone|f c'' Hsome Hret|f e c'' Hsome Hraise].
    + simpl. by rewrite drawn_app, Hd.
    + repeat constructor. apply Forall_app. split; [|by repeat constructor].
      destruct Hcb; by repeat constructor.
Qed.

Lemma objs_effects (objs : list sighting) (st : scanner) (c : cb_state) :
  ∃ c' l,
    for_objs objs st c = (Normal (foldl step st objs), c', l) ∧
    effects st objs c c' l ∧
    drawn l = (overlay ∘ obj) <$> objs ∧
    Forall (fun ev => frame_event ev = false) l.
Proof.
  revert st c. induction objs as [|s objs IH]; intros st c.
  - exists c, []. split_and!; [done | apply effects_nil | done | constructor].
  - destruct (body_effects st s c) as (c1 & l1 & Hb & He1 & Hd1 & Hq1).
    destruct (IH (step st s) c1) as (c2 & l2 & Hf & He2 & Hd2 & Hq2).
    exists c2, (l1 ++ l2). simpl. unfold bind at 1. rewrite Hb, Hf.
    split_and!; [done | | | by apply Forall_app].
    + by apply (effects_app st [s] objs c c1 c2).
    + by rewrite drawn_app, Hd1, Hd2.
Qed.

Lemma loop_effects (script : list capture) (st : scanner) (c : cb_state) :
  ∃ c' l,
    while_loop script st c
      = (Normal (if leaves script then Exited else Running,
                 foldl step st (handled script)), c', l) ∧
    effects st (handled script) c c' l ∧
    ∀ p, shown p l
         = (fun objs : list sighting => (overlay ∘ obj) <$> objs) <$> displayed script.
Proof.
  revert st c. induction script as [|[|objs key] script IH]; intros st c.
  - exists c, []. split_and!; [done | apply effects_nil | done].
  - exists c, [Read; Println MsgStreamEnd]. split_and!; [done | | done].
    apply (effects_frame st [] c c [Println MsgStreamEnd] Read); [by left|].
    apply effects_aside. by right; right.
  - destruct (objs_effects objs st c) as (c1 & l1 & Hf & He1 & Hd1 & Hq1).
    rewrite (while_loop_frame update_callback convexHull _ _ _ _ _ _ _ _ Hf).
    simpl. destruct (Z.land key 255 =? ord_q)%Z; simpl.
    + exists c1, (Read :: l1 ++ [Imshow]). rewrite app_nil_r.
      split_and!; [done | |].
      * apply effects_frame; [by left|]. apply effects_frame; [by right; left | done].
      * intros p. simpl. rewrite shown_app_quiet by done. simpl. by rewrite Hd1.
    + destruct (IH (foldl step st objs) c1) as (c2 & l2 & Hw & He2 & Hs2).
      rewrite Hw, foldl_app.
      exists c2, (Read :: l1 ++ Imshow :: l2).
      split_and!; [done | |].
      * apply effects_frame; [by left|].
        apply (effects_app st objs (handled script) c c1 c2 l1 (Imshow :: l2));
          [done|].
        apply effects_frame; [by right; left | done].
      * intros p. simpl. rewrite shown_app_quiet by done. simpl.
        by rewrite Hs2, Hd1.
Qed.

(** A whole session with an open camera, in terms of the fold over the
    detections it handles. *)
Lemma scan_effects (script : list capture) (c : cb_state) :
  ∃ c' l,
    scan_qr_codes true script c
      = (Normal (if leaves script
                 then Some (accepted_of init_scanner (handled script)).*1
                 else None),
         c',
         greeting ++ l ++
           (if leaves script
            then farewell (accepted_of init_scanner (handled script)).*1
            else [])) ∧
    effects init_scanner (handled script) c c' l ∧
    ∀ p, shown p l
         = (fun objs : list sighting => (overlay ∘ obj) <$> objs) <$> displayed script.
Proof.
  destruct (loop_effects script init_scanner c) as (c' & l & Hw & He & Hs).
  exists c', l. split; [|done].
  rewrite scan_eq, Hw.
  rewrite (trail_newly _ _ _ (fold_trail init_scanner (handled script))). simpl.
  destruct (leaves script); by rewrite ?app_nil_r.
Qed.

Lemma greeting_effects :
  callbacks greeting = [] ∧ beeps greeting = 0 ∧ captures greeting = 1 ∧
  Forall (fun ev => frame_event ev = false) greeting.
Proof.
  unfold greeting. destruct update_callback; by repeat constructor.
Qed.

(** The acceptances a session logs are those of the fold. *)
Lemma scan_fold (script : list capture) (c : cb_state) :
  acceptances 0 (scan_qr_codes true script c).2
    = accepted_of init_scanner (handled script)
  ∧ (scan_qr_codes true script c).1.1
    = Normal (if leaves script
              then Some (accepted_of init_scanner (handled script)).*1
              else None).
Proof.
  destruct (scan_effects script c) as (c' & l & -> & [Ha _ _ _ _ _] & _).
  destruct (greeting_quiet update_callback) as (_ & _ & Hag & Hcg).
  split; [|done]. cbn [fst snd].
  rewrite !acceptances_app, Hag, Hcg, Ha.
  destruct (leaves script); simpl; by rewrite app_nil_r.
Qed.


Lemma while_loop_leaves (pre post : list capture) (st : scanner) (c : cb_state) :
  leaves pre = true -> while_loop (pre ++ post) st c = while_loop pre st c.
Proof.
  revert st c. induction pre as [|[|objs key] pre IH]; intros st c Hlv; [done..|].
  destruct (objs_effects objs st c) as (c1 & l1 & Hf & _).
  rewrite <- app_comm_cons.
  rewrite !(while_loop_frame update_callback convexHull _ _ _ _ _ _ _ _ Hf).
  simpl in Hlv. destruct (Z.land key 255 =? ord_q)%Z; [done|].
  by rewrite IH.
Qed.

(** X3: once a read has failed or 'q' has been read, nothing more is read:
    whatever captures follow in the script, the session is the same, result,
    callback state and log. *)
Theorem X3_nothing_read_after_exit (pre post : list capture) (c : cb_state) :
  leaves pre = true ->
  scan_qr_codes true (pre ++ post) c = scan_qr_codes true pre c.
Proof.
  intros Hlv. rewrite !scan_eq. by rewrite while_loop_leaves.
Qed.

(** X4: at any point of a session, the frame just displayed is the last one
    exactly when the value of [cv2.waitKey(1)] is 113 modulo 256: only the low
    byte of the key code counts. *)
Theorem X4_quit_key_low_byte (pre : list capture) (objs : list sighting)
    (key : Z) (c : cb_state) :
  leaves pre = false ->
  (∃ res, (scan_qr_codes true (pre ++ [Frame objs key]) c).1.1 = Normal (Some res))
  ↔ (key mod 256 = 113)%Z.
Proof.
  intros Hlv.
  destruct (scan_effects (pre ++ [Frame objs key]) c) as (c' & l & -> & _).
  rewrite leaves_app, Hlv. simpl. rewrite orb_false_r, low_byte. unfold ord_q.
  destruct (Z.eqb_spec (key mod 256) 113) as [Heq|Hne].
  - split; [done | eauto].
  - split; [by intros [res ?] | done].
Qed.

(** X5: a session with an open camera that ends, by a failed read or by 'q',
    ends with [cap.release()], [cv2.destroyAllWindows()] and the closing line,
    in this order, and does not release the camera before; a session whose
    camera did not open does not call [cap.release()] at all. *)
Theorem X5_camera_released_at_exit :
  (∀ script c res c' l,
     scan_qr_codes true script c = (Normal (Some res), c', l) ->
     ∃ body,
       l = greeting ++ body
             ++ [Release; DestroyAllWindows; Println (MsgStopped (length res))] ∧
       releases body = 0 ∧ releases l = 1 ∧ captures l = 1)
  ∧ (∀ script c, releases (scan_qr_codes false script c).2 = 0).
Proof.
  split; [|done].
  intros script c res c' l Hscan.
  destruct (scan_effects script c) as (c1 & l1 & Heq & He & _).
  rewrite Heq in Hscan. destruct (leaves script); [|done].
  injection Hscan as <- <- <-.
  exists l1. destruct He as [_ _ _ _ Hr Hv].
  split_and!; [done | done | |].
  - destruct update_callback; simpl; by rewrite releases_app, Hr.
  - destruct update_callback; simpl; by rewrite captures_app, Hv.
Qed.

(** X7: [play_beep()] is called exactly once for every accepted text. *)
Theorem X7_one_beep_per_acceptance (opened : bool) (script : list capture)
    (c : cb_state) :
  beeps (scan_qr_codes opened script c).2
    = length (acceptances 0 (scan_qr_codes opened script c).2).
Proof.
  destruct opened; [|by rewrite scan_closed].
  destruct (scan_fold script c) as [-> _].
  destruct (scan_effects script c) as (c' & l & -> & [_ _ _ Hb _ _] & _).
  destruct greeting_effects as (_ & Hbg & _).
  cbn [fst snd]. rewrite !beeps_app, Hbg, Hb.
  destruct (leaves script); simpl; lia.
Qed.

(** X8: the seen set and the result list stay in step.  If, before the loop,
    the seen set holds exactly the texts of the list and the list has no
    duplicates, the same is true after any number of passes of the loop; the
    list has only grown at its end, and the set has as many members as the
    list has entries. *)
Theorem X8_seen_set_matches_result (script : list capture) (st : scanner)
    (c : cb_state) :
  scanned_codes st = list_to_set (newly_scanned_data st) ->
  NoDup (newly_scanned_data st) ->
  ∃ status st' c' l,
    while_loop script st c = (Normal (status, st'), c', l) ∧
    scanned_codes st' = list_to_set (newly_scanned_data st') ∧
    NoDup (newly_scanned_data st') ∧
    size (scanned_codes st') = length (newly_scanned_data st') ∧
    newly_scanned_data st `prefix_of` newly_scanned_data st'.
Proof.
  intros Hset Hnd.
  destruct (loop_effects script st c) as (c' & l & Hw & _).
  pose proof (fold_trail st (handled script)) as Ht.
  set (acc := accepted_of st (handled script)) in *.
  set (st' := foldl step st (handled script)) in *.
  eexists _, st', c', l. split; [done|].
  pose proof (trail_newly _ _ _ Ht) as Hn.
  pose proof (trail_scanned _ _ _ Ht) as Hs.
  destruct (trail_NoDup _ _ _ Ht) as [Hnd' Hfresh].
  assert (scanned_codes st' = list_to_set (newly_scanned_data st')) as Hset'.
  { rewrite Hs, Hn, Hset, list_to_set_app_L. done. }
  assert (NoDup (newly_scanned_data st')) as Hnd''.
  { rewrite Hn. apply NoDup_app. split_and!; [done | | done].
    intros d Hd Hacc. apply (Hfresh d Hacc). rewrite Hset. set_solver. }
  split_and!; [done | done | | ].
  - rewrite Hset'. by apply size_list_to_set.
  - rewrite Hn. by apply prefix_app_r.
Qed.

(** The camera calls of a session that has ended. *)
Lemma scan_counts (opened : bool) (script : list capture) (c : cb_state)
    (res : list string) (c' : cb_state) (l : list event) :
  scan_qr_codes opened script c = (Normal (Some res), c', l) ->
  releases l = (if opened then 1 else 0) ∧ captures l = 1 ∧
  res = (acceptances 0 l).*1.
Proof.
  destruct opened.
  - intros Hscan.
    destruct (scan_fold script c) as [Hacc _].
    destruct (scan_effects script c) as (c1 & l1 & Heq & [_ _ _ _ Hr Hv] & _).
    rewrite Hscan in Hacc. cbn [fst snd] in Hacc. rewrite Hacc.
    rewrite Heq in Hscan. destruct (leaves script); [|done].
    injection Hscan as <- <- <-.
    split_and!; [| | done].
    + destruct update_callback; simpl; by rewrite releases_app, Hr.
    + destruct update_callback; simpl; by rewrite captures_app, Hv.
  - rewrite scan_closed. by intros [= <- <- <-].
Qed.

End SessionFacts.

(** * The script body *)

Lemma said_app (l1 l2 : list main_event) : said (l1 ++ l2) = said l1 ++ said l2.
Proof.
  induction l1 as [|[m|ev] l1 IH]; simpl; by rewrite ?IH.
Qed.

Lemma inner_app (l1 l2 : list main_event) : inner (l1 ++ l2) = inner l1 ++ inner l2.
Proof.
  induction l1 as [|[m|ev] l1 IH]; simpl; by rewrite ?IH.
Qed.

Lemma said_Inner (l : list event) : said (map Inner l) = [].
Proof. by induction l. Qed.

Lemma inner_Inner (l : list event) : inner (map Inner l) = l.
Proof. induction l as [|ev l IH]; simpl; by rewrite ?IH. Qed.

Lemma said_report (res : list string) :
  said (report res)
  = match res with
    | [] => [MsgNoData]
    | _ :: _ => MsgScannedData :: (MsgItem <$> res)
    end
  ∧ inner (report res) = [].
Proof.
  destruct res as [|d res]; [done|].
  unfold report. generalize (d :: res). intros l.
  split; simpl; [f_equal|]; induction l as [|x l IH]; simpl; by rewrite ?IH.
Qed.

Section MainFacts.

Context {image : Type}.
Variable convexHull : list (Z * Z) -> list (Z * Z).

(** The probe as the script body sees it: a boolean that is True exactly when
    the probe is in order, and the log of its calls. *)
Lemma probe_run (cam : camera image) :
  ∃ b l0,
    test_camera cam tt = (Normal b, tt, l0) ∧
    (b = true ↔ probe_ok cam) ∧
    (b = true -> l0 = [VideoCapture; Read; Release]) ∧
    (∀ t, acceptances t l0 = []) ∧ captures l0 = 1.
Proof.
  rewrite test_camera_eq. unfold probe_ok.
  destruct (cam_VideoCapture cam) as [[]|e1];
    [|eexists _, _; split; [reflexivity | naive_solver]].
  destruct (cam_isOpened cam) as [[|]|e2];
    [|eexists _, _; split; [reflexivity | naive_solver]..].
  destruct (cam_read cam) as [[r fr]|e3];
    [|eexists _, _; split; [reflexivity | naive_solver]].
  destruct (cam_release cam) as [[]|e4];
    [|eexists _, _; split; [reflexivity | naive_solver]].
  eexists _, _. split; [reflexivity|]. simpl.
  destruct r, fr as [img|]; simpl; naive_solver.
Qed.

(** X10: the script body starts the scanner exactly when the probe is in
    order.  Otherwise it prints the failure line and stops: none of the
    scanner's calls is made. *)
Theorem X10_scanner_runs_iff_probe_ok (cam : camera image) (opened : bool)
    (script : list capture) :
  (MsgStarting ∈ said (main convexHull cam opened script).2 ↔ probe_ok cam)
  ∧ (¬ probe_ok cam ->
     (main convexHull cam opened script).1 = Normal (Some tt) ∧
     said (main convexHull cam opened script).2 = [MsgTesting; MsgTestFailed] ∧
     inner (main convexHull cam opened script).2 = (test_camera cam tt).2).
Proof.
  destruct (probe_run cam) as (b & l0 & Hp & Hiff & _).
  unfold main. rewrite Hp. destruct b.
  - assert (probe_ok cam) as Hok by by apply Hiff.
    split; [|done]. split; [done|]. intros _.
    destruct (scan_qr_codes None convexHull opened script ())
      as [[[[res|]|e] u] l1]; cbn [fst snd]; simpl;
      rewrite !said_app, said_Inner; simpl; set_solver.
  - assert (¬ probe_ok cam) as Hno by (intros Hok; by apply Hiff in Hok).
    cbn [fst snd]. simpl. rewrite said_app, inner_app, said_Inner, inner_Inner.
    simpl. rewrite app_nil_r. split; [|done].
    split; [|done]. intros Hin. set_solver.
Qed.

(** X11: when the probe is in order and the scanner has ended, the script
    body prints, after its two opening lines, either the line for no data,
    when nothing was accepted, or the heading followed by one line for every
    accepted text, each once, in the order of acceptance. *)
Theorem X11_report_lists_accepted_texts (cam : camera image) (opened : bool)
    (script : list capture) :
  probe_ok cam ->
  (main convexHull cam opened script).1 = Normal (Some tt) ->
  said (main convexHull cam opened script).2
    = MsgTesting :: MsgStarting ::
        match (acceptances 0 (inner (main convexHull cam opened script).2)).*1 with
        | [] => [MsgNoData]
        | _ :: _ =>
            MsgScannedData ::
              (MsgItem <$> (acceptances 0 (inner (main convexHull cam opened script).2)).*1)
        end
  ∧ NoDup (acceptances 0 (inner (main convexHull cam opened script).2)).*1.
Proof.
  intros Hok.
  destruct (probe_run cam) as (b & l0 & Hp & Hiff & _ & Hacc0 & _).
  apply Hiff in Hok as ->.
  unfold main. rewrite Hp.
  destruct (scan_qr_codes None convexHull opened script ())
    as [[[[res|]|e] u] l1] eqn:Hscan; cbn [fst snd]; [|done..].
  intros _.
  destruct (scan_counts _ _ _ _ _ _ _ _ Hscan) as (_ & _ & Hres).
  destruct (said_report res) as [Hsaid Hinner].
  simpl. rewrite !said_app, !inner_app, said_Inner, inner_Inner. simpl.
  rewrite !said_app, !inner_app, said_Inner, inner_Inner, Hsaid, Hinner, app_nil_r.
  rewrite acceptances_app, Hacc0. simpl.
  assert (∀ t, acceptances t l1 = acceptances 0 l1) as Hany.
  { intros t. destruct opened.
    - destruct (scan_effects None convexHull script ()) as (c' & l & Heq & [Ha _ _ _ _ _] & _).
      rewrite Hscan in Heq. injection Heq as _ _ ->. simpl.
      rewrite !acceptances_app, !Ha. by destruct (leaves script).
    - rewrite scan_closed in Hscan. by injection Hscan as _ _ <-. }
  rewrite Hany, <- Hres. split; [done|].
  rewrite Hres.
  destruct opened.
  - destruct (scan_run None convexHull script ()) as (st' & c' & l & Heq & _ & _ & Ht).
    rewrite Hscan in Heq. injection Heq as _ _ ->.
    by apply trail_NoDup in Ht as [? _].
  - rewrite scan_closed in Hscan. injection Hscan as _ _ <-. constructor.
Qed.

End MainFacts.

Section ProbeMore.

Context {image S : Type}.

(** X13: the probe prints a line only if one of its calls raised, and then
    one line, for that exception; when the device is not open it returns
    False without a word, and so it does when the read returns without a
    frame and the release returns. *)
Theorem X13_probe_prints_only_on_exception (cam : camera image) (s : S) :
  (∀ e, e ∈ probe_errors (test_camera cam s).2 ->
        cam_VideoCapture cam = Raised e ∨ cam_isOpened cam = Raised e ∨
        cam_read cam = Raised e ∨ cam_release cam = Raised e)
  ∧ length (probe_errors (test_camera cam s).2) ≤ 1
  ∧ (cam_VideoCapture cam = Normal tt -> cam_isOpened cam = Normal false ->
     test_camera cam s = (Normal false, s, [VideoCapture]))
  ∧ (cam_VideoCapture cam = Normal tt -> cam_isOpened cam = Normal true ->
     cam_release cam = Normal tt ->
     ∀ ret, cam_read cam = Normal (ret, None) ->
     test_camera cam s = (Normal false, s, [VideoCapture; Read; Release])).
Proof.
  rewrite test_camera_eq.
  destruct (cam_VideoCapture cam) as [[]|e1].
  2: { split_and!; simpl; [set_solver | lia | done..]. }
  destruct (cam_isOpened cam) as [[|]|e2].
  2, 3: split_and!; simpl; [set_solver | lia | done..].
  destruct (cam_read cam) as [[ret fr]|e3].
  2: { split_and!; simpl; [set_solver | lia | done..]. }
  destruct (cam_release cam) as [[]|e4].
  2: { split_and!; simpl; [set_solver | lia | done..]. }
  split_and!; simpl; [set_solver | lia | done |].
  intros _ _ _ ret' [= -> ->]. by rewrite andb_false_r.
Qed.

End ProbeMore.

(** ** The session properties at sample inputs *)

Lemma X3_witness :
  scan_qr_codes no_callback sample_hull true
    ([Frame [sample "A" 100] 113] ++ [Frame [sample "B" 200] (-1); NoFrame]) tt
  = scan_qr_codes no_callback sample_hull true [Frame [sample "A" 100] 113] tt.
Proof.
  apply (X3_nothing_read_after_exit no_callback sample_hull). reflexivity.
Defined.

Lemma X4_witness :
  ∃ res,
    (scan_qr_codes no_callback sample_hull true
       ([Frame [] (-1)] ++ [Frame [sample "A" 100] 1048689]) tt).1.1
    = Normal (Some res).
Proof.
  apply (X4_quit_key_low_byte no_callback sample_hull
           [Frame [] (-1)] [sample "A" 100] 1048689 tt); reflexivity.
Defined.

Lemma X5_witness :
  ∃ body,
    (scan_qr_codes no_callback sample_hull true [Frame [sample "A" 100] 113] tt).2
    = greeting no_callback ++ body
        ++ [Release; DestroyAllWindows; Println (MsgStopped 1)]
    ∧ releases body = 0.
Proof.
  destruct (proj1 (X5_camera_released_at_exit no_callback sample_hull)
              [Frame [sample "A" 100] 113] tt ["A"] tt
              (scan_qr_codes no_callback sample_hull true
                 [Frame [sample "A" 100] 113] tt).2)
    as (body & Hl & Hr & _).
  - vm_compute. reflexivity.
  - exists body. split; [exact Hl | exact Hr].
Defined.

Lemma X8_witness :
  ∃ status st' c' l,
    while_loop no_callback sample_hull
      [Frame [sample "A" 100; sample "A" 200] (-1)] init_scanner tt
    = (Normal (status, st'), c', l) ∧
    scanned_codes st' = list_to_set (newly_scanned_data st') ∧
    NoDup (newly_scanned_data st') ∧
    size (scanned_codes st') = length (newly_scanned_data st') ∧
    newly_scanned_data init_scanner `prefix_of` newly_scanned_data st'.
Proof.
  apply (X8_seen_set_matches_result no_callback sample_hull).
  - reflexivity.
  - constructor.
Defined.

Lemma X10_witness :
  said (main sample_hull closed_camera true [NoFrame]).2 = [MsgTesting; MsgTestFailed].
Proof.
  apply (proj2 (X10_scanner_runs_iff_probe_ok sample_hull closed_camera true [NoFrame])).
  intros (_ & Hopen & _). discriminate Hopen.
Defined.

Lemma X11_witness :
  said (main sample_hull good_camera true [Frame [sample "A" 100] 113]).2
  = [MsgTesting; MsgStarting; MsgScannedData; MsgItem "A"].
Proof.
  destruct (X11_report_lists_accepted_texts sample_hull good_camera true
              [Frame [sample "A" 100] 113]) as [Hsaid _].
  - split_and!; [reflexivity | reflexivity | by exists tt | reflexivity].
  - reflexivity.
  - rewrite Hsaid. vm_compute. reflexivity.
Defined.

Lemma X13_witness :
  test_camera closed_camera tt = (Normal false, tt, [VideoCapture]).
Proof.
  apply (proj1 (proj2 (proj2 (X13_probe_prints_only_on_exception closed_camera tt))));
    reflexivity.
Defined.

(** * What is accepted, against what was detected *)

Lemma accepted_of_detected (st : scanner) (ss : list sighting) (d : string) (t : Q) :
  (d, t) ∈ accepted_of st ss ->
  ∃ s, s ∈ ss ∧ data (obj s) = d ∧ now s = t.
Proof.
  revert st. induction ss as [|s ss IH]; intros st; simpl; [by intros ?%elem_of_nil|].
  intros [Hhere|Hlater]%elem_of_app.
  - exists s. split; [by left|].
    destruct (decide (data (obj s) ∉ scanned_codes st)); [|by apply elem_of_nil in Hhere].
    destruct (Qltb 2 (now s - last_scan_time st)); [|by apply elem_of_nil in Hhere].
    apply list_elem_of_singleton in Hhere. by injection Hhere as -> ->.
  - destruct (IH _ Hlater) as (s' & Hin & Hd & Ht).
    exists s'. split; [by right | done].
Qed.


Section DetectedFacts.

Context {cb_state : Type}.
Variable update_callback : option (cb_state -> string -> outcome unit * cb_state).
Variable convexHull : list (Z * Z) -> list (Z * Z).

Local Abbreviation scan_qr_codes := (scan_qr_codes update_callback convexHull).

(** X14: nothing is accepted that was not detected: every acceptance of a
    session is the text of a detection in one of the frames read before the
    loop left, with the clock reading of that very detection. *)
Theorem X14_accepted_were_detected (script : list capture) (c : cb_state)
    (d : string) (t : Q) :
  (d, t) ∈ acceptances 0 (scan_qr_codes true script c).2 ->
  ∃ s, s ∈ handled script ∧ data (obj s) = d ∧ now s = t.
Proof.
  destruct (scan_fold update_callback convexHull script c) as [-> _].
  apply accepted_of_detected.
Qed.


End DetectedFacts.

Lemma X14_witness :
  ∃ s, s ∈ handled [Frame [sample "A" 100; sample "B" 101] 113]
       ∧ data (obj s) = "A" ∧ now s = 100%Q.
Proof.
  apply (X14_accepted_were_detected no_callback sample_hull
           [Frame [sample "A" 100; sample "B" 101] 113] tt "A" 100%Q).
  vm_compute. left.
Defined.


(** * From the bytes on *)


Section FullFacts.

Context {cb_state : Type}.
Variable update_callback : option (callback cb_state).
Variable convexHull : list (Z * Z) -> list (Z * Z).

Local Abbreviation text_body := (for_body (truthy update_callback) convexHull).
Local Abbreviation text_objs := (for_objs (truthy update_callback) convexHull).
Local Abbreviation overlay := (overlay convexHull).
Local Abbreviation effects := (effects (truthy update_callback)).
Local Abbreviation callback_state := (callback_state (truthy update_callback)).
Local Abbreviation greeting := (greeting (truthy update_callback)).

(** Line 50 on a payload that decodes: the body goes on with the text. *)
Lemma full_body_good (st : scanner) (r : Scanned) (c : cb_state) :
  utf8_valid (payload r) = true ->
  Full.for_body update_callback convexHull st r c = text_body st (text_of r) c.
Proof.
  intros Hv. unfold Full.for_body, decode_utf8, text_of. rewrite Hv.
  unfold bind, lift.
  by destruct (for_body _ _ _ _ c) as [[[st'|e] c'] l].
Qed.

(** Line 50 on a payload that does not decode: the body raises at once. *)
Lemma full_body_bad (st : scanner) (r : Scanned) (c : cb_state) :
  utf8_valid (payload r) = false ->
  Full.for_body update_callback convexHull st r c = (Raised UnicodeDecodeError, c, []).
Proof.
  intros Hv. unfold Full.for_body, decode_utf8. by rewrite Hv.
Qed.

(** The detections of a frame: those before the first payload that does not
    decode are handled as texts; that payload, if there is one, raises. *)
Lemma full_objs (objs : list Scanned) (st : scanner) (c : cb_state) :
  Full.for_objs update_callback convexHull objs st c
  = (let '(r, c', l) := text_objs (good_prefix objs) st c in
     (if all_good objs then r else Raised UnicodeDecodeError, c', l)).
Proof.
  revert st c. induction objs as [|r objs IH]; intros st c; [done|].
  simpl. destruct (utf8_valid (payload r)) eqn:Hv; simpl.
  - unfold bind. rewrite (full_body_good _ _ _ Hv).
    destruct (body_effects (truthy update_callback) convexHull st (text_of r) c)
      as (c1 & l1 & Hb & _).
    rewrite Hb, IH.
    by destruct (text_objs (good_prefix objs) (step st (text_of r)) c1)
      as [[[st2|e] c2] l2].
  - unfold bind at 1. by rewrite (full_body_bad _ _ _ Hv).
Qed.

Lemma full_loop_frame (objs : list Scanned) (key : Z) (script : list shot)
    (st : scanner) (c : cb_state) :
  Full.while_loop update_callback convexHull (Shot objs key :: script) st c
  = match Full.for_objs update_callback convexHull objs st c with
    | (Normal st1, c1, l1) =>
        if (Z.land key 255 =? ord_q)%Z
        then (Normal (Exited, st1), c1, Read :: l1 ++ [Imshow])
        else let '(r, c2, l2) :=
               Full.while_loop update_callback convexHull script st1 c1 in
             (r, c2, Read :: l1 ++ Imshow :: l2)
    | (Raised e, c1, l1) => (Raised e, c1, Read :: l1)
    end.
Proof.
  simpl. unfold bind at 1. unfold emit at 1. unfold bind at 1.
  destruct (Full.for_objs update_callback convexHull objs st c)
    as [[[st1|e] c1] l1]; [|done].
  unfold bind at 1. unfold emit at 1.
  destruct (Z.land key 255 =? ord_q)%Z; [done|].
  by destruct (Full.while_loop update_callback convexHull script st1 c1)
    as [[r c2] l2].
Qed.

(** The loop from the bytes on, in terms of the fold over the detections it
    reaches. *)
Lemma full_loop_effects (script : list shot) (st : scanner) (c : cb_state) :
  ∃ c' l,
    Full.while_loop update_callback convexHull script st c
      = (if crashes script then Raised UnicodeDecodeError
         else Normal (if returns script then Exited else Running,
                      foldl step st (reached script)),
         c', l) ∧
    effects st (reached script) c c' l ∧
    drawn l = (overlay ∘ obj) <$> reached script ∧
    ∀ p, shown p l
         = (fun objs : list sighting => (overlay ∘ obj) <$> objs) <$> frames_shown script.
Proof.
  revert st c. induction script as [|[|objs key] script IH]; intros st c.
  - exists c, []. split_and!; [done | apply effects_nil | done | done].
  - exists c, [Read; Println MsgStreamEnd]. split_and!; [done | | done | done].
    apply (effects_frame _ st [] c c [Println MsgStreamEnd] Read); [by left|].
    apply effects_aside. by right; right.
  - destruct (objs_effects (truthy update_callback) convexHull (good_prefix objs) st c)
      as (c1 & l1 & Hf & He1 & Hd1 & Hq1).
    rewrite full_loop_frame, full_objs, Hf. simpl.
    destruct (all_good objs); simpl.
    + destruct (Z.land key 255 =? ord_q)%Z; simpl.
      * exists c1, (Read :: l1 ++ [Imshow]). rewrite app_nil_r.
        split_and!; [done | | |].
        -- apply effects_frame; [by left|].
           apply effects_frame; [by right; left | done].
        -- simpl. by rewrite drawn_app, Hd1, app_nil_r.
        -- intros p. simpl. rewrite shown_app_quiet by done. simpl. by rewrite Hd1.
      * destruct (IH (foldl step st (good_prefix objs)) c1)
          as (c2 & l2 & Hw & He2 & Hd2 & Hs2).
        rewrite Hw, foldl_app.
        exists c2, (Read :: l1 ++ Imshow :: l2).
        split_and!; [by destruct (crashes script) | | |].
        -- apply effects_frame; [by left|].
           apply (effects_app _ st (good_prefix objs) (reached script) c c1 c2
                    l1 (Imshow :: l2)); [done|].
           apply effects_frame; [by right; left | done].
        -- simpl. by rewrite drawn_app, Hd1, fmap_app; simpl; rewrite Hd2.
        -- intros p. simpl. rewrite shown_app_quiet by done. simpl.
           by rewrite Hs2, Hd1.
    + exists c1, (Read :: l1). rewrite app_nil_r.
      split_and!; [done | | done |].
      * apply effects_frame; [by left | done].
      * intros p. simpl. rewrite <- (app_nil_r l1).
        by rewrite shown_app_quiet.
Qed.

(** A session with an open camera, from the bytes on, in terms of its loop. *)
Lemma full_scan_eq (script : list shot) (c : cb_state) :
  Full.scan_qr_codes update_callback convexHull true script c =
  match Full.while_loop update_callback convexHull script init_scanner c with
  | (Normal (Running, _), c', l) => (Normal None, c', greeting ++ l)
  | (Normal (Exited, st), c', l) =>
      (Normal (Some (newly_scanned_data st)), c',
       greeting ++ l ++ farewell (newly_scanned_data st))
  | (Raised e, c', l) => (Raised e, c', greeting ++ l)
  end.
Proof.
  unfold Full.scan_qr_codes, greeting. simpl. unfold bind, emit, ret.
  destruct (truthy update_callback);
    destruct (Full.while_loop _ _ script init_scanner c)
      as [[[[[] st']|e] c'] l]; simpl; by rewrite ?app_nil_r.
Qed.

Lemma full_scan_closed (script : list shot) (c : cb_state) :
  Full.scan_qr_codes update_callback convexHull false script c
    = (Normal (Some []), c, [VideoCapture; Println MsgCameraError]).
Proof. reflexivity. Qed.

(** A whole session from the bytes on. *)
Lemma full_scan_effects (script : list shot) (c : cb_state) :
  ∃ c' l,
    Full.scan_qr_codes update_callback convexHull true script c
      = (if crashes script then Raised UnicodeDecodeError
         else Normal (if returns script
                      then Some (accepted_of init_scanner (reached script)).*1
                      else None),
         c',
         greeting ++ l ++
           (if negb (crashes script) && returns script
            then farewell (accepted_of init_scanner (reached script)).*1
            else [])) ∧
    effects init_scanner (reached script) c c' l ∧
    drawn l = (overlay ∘ obj) <$> reached script ∧
    ∀ p, shown p l
         = (fun objs : list sighting => (overlay ∘ obj) <$> objs) <$> frames_shown script.
Proof.
  destruct (full_loop_effects script init_scanner c) as (c' & l & Hw & He & Hd & Hs).
  exists c', l. split; [|done].
  rewrite full_scan_eq, Hw.
  pose proof (trail_newly _ _ _ (fold_trail init_scanner (reached script))) as Hn.
  simpl in Hn.
  destruct (crashes script), (returns script); simpl; by rewrite ?Hn, ?app_nil_r.
Qed.

(** The acceptances a session logs, from the bytes on, are those of the fold
    over the detections it reaches. *)
Lemma full_scan_fold (script : list shot) (c : cb_state) :
  acceptances 0 (Full.scan_qr_codes update_callback convexHull true script c).2
    = accepted_of init_scanner (reached script).
Proof.
  destruct (full_scan_effects script c) as (c' & l & -> & [Ha _ _ _ _ _] & _).
  destruct (greeting_quiet (truthy update_callback)) as (_ & _ & Hag & Hcg).
  cbn [fst snd]. rewrite !acceptances_app, Hag, Hcg, Ha.
  destruct (negb (crashes script) && returns script); simpl; by rewrite app_nil_r.
Qed.






Lemma good_prefix_all (objs : list Scanned) :
  all_good objs = true -> good_prefix objs = map text_of objs.
Proof.
  induction objs as [|r objs IH]; [done|]. simpl.
  intros [-> Hrest]%andb_true_iff. by rewrite IH.
Qed.

(** The two layers agree: on a session that meets no payload that does not
    decode, the function from the bytes on is the session on the texts, with
    the callback that passes the truth test. *)
Lemma full_is_text_session (opened : bool) (script : list shot) (c : cb_state) :
  crashes script = false ->
  Full.scan_qr_codes update_callback convexHull opened script c
  = scan_qr_codes (truthy update_callback) convexHull opened (texts script) c.
Proof.
  intros Hok. destruct opened; [|done].
  rewrite full_scan_eq, scan_eq.
  assert (∀ st c,
            Full.while_loop update_callback convexHull script st c
            = while_loop (truthy update_callback) convexHull (texts script) st c)
    as ->; [|done].
  induction script as [|[|objs key] script IH]; intros st c'; [done..|].
  simpl in Hok. apply orb_false_iff in Hok as [Hgood Hrest].
  apply negb_false_iff in Hgood.
  destruct (objs_effects (truthy update_callback) convexHull (map text_of objs) st c')
    as (c1 & l1 & Hf & _).
  rewrite full_loop_frame, full_objs, Hgood, (good_prefix_all _ Hgood), Hf.
  change (texts (Shot objs key :: script))
    with (Frame (map text_of objs) key :: texts script).
  rewrite (while_loop_frame _ _ _ _ _ _ _ _ _ _ Hf).
  destruct (Z.land key 255 =? ord_q)%Z; [done|].
  by rewrite IH.
Qed.

(** ** The callback guard *)


(** ** The overlay *)


(** ** Callbacks, display and decode failures *)

(** X6: a callback that is given and true is called exactly once for every
    accepted text, with that text, in the order of acceptance, and its state
    is passed from each call to the next whether the call returned or raised.
    When no callback is given, or the object given is false, nothing is
    called. *)
Theorem X6_callback_once_per_acceptance (opened : bool) (script : list shot)
    (c : cb_state) :
  (∀ cb, update_callback = Some cb -> cb_truth cb = true ->
     callbacks (Full.scan_qr_codes update_callback convexHull opened script c).2
       = (acceptances 0
            (Full.scan_qr_codes update_callback convexHull opened script c).2).*1
     ∧ (Full.scan_qr_codes update_callback convexHull opened script c).1.2
       = foldl (fun c d => (cb_call cb c d).2) c
           (acceptances 0
              (Full.scan_qr_codes update_callback convexHull opened script c).2).*1)
  ∧ (update_callback = None ∨ (∃ cb, update_callback = Some cb ∧ cb_truth cb = false) ->
     callbacks (Full.scan_qr_codes update_callback convexHull opened script c).2 = []
     ∧ (Full.scan_qr_codes update_callback convexHull opened script c).1.2 = c).
Proof.
  assert (callbacks (Full.scan_qr_codes update_callback convexHull opened script c).2
          = match truthy update_callback with
            | Some _ =>
                (acceptances 0
                   (Full.scan_qr_codes update_callback convexHull opened script c).2).*1
            | None => []
            end
          ∧ (Full.scan_qr_codes update_callback convexHull opened script c).1.2
            = callback_state c
                (acceptances 0
                   (Full.scan_qr_codes update_callback convexHull opened script c).2).*1)
    as [Hcalls Hstate].
  { destruct opened.
    - rewrite full_scan_fold.
      destruct (full_scan_effects script c) as (c' & l & -> & [_ Hc Hs _ _ _] & _).
      destruct (greeting_effects (truthy update_callback)) as (Hcg & _).
      split; [|done]. cbn [fst snd].
      rewrite !callbacks_app, Hcg, Hc.
      destruct (negb (crashes script) && returns script), (truthy update_callback);
        simpl; by rewrite ?app_nil_r.
    - rewrite full_scan_closed. simpl. unfold callback_state.
      by destruct (truthy update_callback). }
  split.
  - intros cb Hcb Htrue. rewrite Hcalls, Hstate. unfold callback_state.
    rewrite Hcb. simpl. by rewrite Htrue.
  - intros Hnone. rewrite Hcalls, Hstate. unfold callback_state.
    destruct Hnone as [->|(cb & -> & Hfalse)]; simpl; by rewrite ?Hfalse.
Qed.

(** X9: between reading a frame and showing it, a session draws exactly the
    overlays of that frame's detections, in the detector's order, and it
    shows the frame once.  It shows the frames read before the loop leaves
    whose payloads all decode; a frame with a payload that does not decode is
    never shown, nor is anything shown for a failed read. *)
Theorem X9_window_shows_each_frame (script : list shot) (c : cb_state) :
  shown [] (Full.scan_qr_codes update_callback convexHull true script c).2
    = (fun objs : list sighting => (overlay ∘ obj) <$> objs) <$> frames_shown script.
Proof.
  destruct (full_scan_effects script c) as (c' & l & -> & _ & _ & Hs).
  destruct (greeting_effects (truthy update_callback)) as (_ & _ & _ & Hq).
  destruct (greeting_quiet (truthy update_callback)) as (Hdg & _).
  cbn [fst snd]. rewrite shown_app_quiet by done. rewrite Hdg. simpl.
  rewrite shown_app_tail; [apply Hs|].
  intros q. by destruct (negb (crashes script) && returns script).
Qed.


End FullFacts.

(** ** The script body from the bytes on *)

(** The camera calls of a session from the bytes on. *)
Lemma full_scan_camera {cb_state : Type} (update_callback : option (callback cb_state))
    (convexHull : list (Z * Z) -> list (Z * Z))
    (opened : bool) (script : list shot) (c : cb_state) :
  captures (Full.scan_qr_codes update_callback convexHull opened script c).2 = 1
  ∧ releases (Full.scan_qr_codes update_callback convexHull opened script c).2
    = (if opened && negb (crashes script) && returns script then 1 else 0)
  ∧ (Full.scan_qr_codes update_callback convexHull opened script c).1.1
    = (if opened
       then if crashes script then Raised UnicodeDecodeError
            else Normal (if returns script
                         then Some (accepted_of init_scanner (reached script)).*1
                         else None)
       else Normal (Some [])).
Proof.
  destruct opened; [|done].
  destruct (full_scan_effects update_callback convexHull script c)
    as (c' & l & -> & [_ _ _ _ Hr Hv] & _).
  destruct (greeting_quiet (truthy update_callback)) as (_ & Hrg & _).
  destruct (greeting_effects (truthy update_callback)) as (_ & _ & Hvg & _).
  cbn [fst snd]. rewrite !captures_app, !releases_app, Hrg, Hvg, Hr, Hv.
  simpl. by destruct (crashes script), (returns script).
Qed.

Section FullMainFacts.

Context {image : Type}.
Variable convexHull : list (Z * Z) -> list (Z * Z).

(** X12: if none of the probe's calls raises and the script body returns, it
    leaves no camera open: [cap.release()] has been called once for the
    probe's capture if that one opened, and once more for the scanner's if the
    scanner ran and its capture opened; the scanner opens the camera anew.  If
    instead the scanner meets a payload that does not decode, the script body
    ends by [UnicodeDecodeError] with the scanner's capture opened and never
    released. *)
Theorem X12_script_leaves_no_camera_open (cam : camera image) (opened : bool)
    (script : list shot) (o : bool) (r : bool * option image) :
  cam_VideoCapture cam = Normal tt ->
  cam_isOpened cam = Normal o ->
  cam_read cam = Normal r ->
  cam_release cam = Normal tt ->
  ((Full.main convexHull cam opened script).1 = Normal (Some tt) ->
   releases (inner (Full.main convexHull cam opened script).2)
     = (if o then 1 else 0)
       + (if o && r.1 && is_not_None r.2 && opened then 1 else 0)
   ∧ captures (inner (Full.main convexHull cam opened script).2)
     = 1 + (if o && r.1 && is_not_None r.2 then 1 else 0))
  ∧ (o && r.1 && is_not_None r.2 = true -> opened = true -> crashes script = true ->
     (Full.main convexHull cam opened script).1 = Raised UnicodeDecodeError
     ∧ releases (inner (Full.main convexHull cam opened script).2) = 1
     ∧ captures (inner (Full.main convexHull cam opened script).2) = 2).
Proof.
  intros Hvc Hop Hrd Hrl.
  destruct (full_scan_camera (cb_state := unit) None convexHull opened script tt)
    as (Hv & Hr & Hres).
  unfold Full.main. rewrite test_camera_eq, Hvc, Hop.
  destruct o; [|split; [done | by intros [=]]].
  rewrite Hrd, Hrl. simpl.
  destruct (r.1 && is_not_None r.2); [|split; [done | by intros [=]]].
  destruct (Full.scan_qr_codes None convexHull opened script ())
    as [[[[res|]|e] u] l1]; cbn [fst snd] in *.
  - destruct (said_report res) as [_ Hinner].
    split.
    + intros _. simpl. rewrite !inner_app. simpl.
      rewrite inner_Inner, Hinner, app_nil_r, Hr, Hv.
      destruct opened; [|done]. simpl in *.
      by destruct (crashes script), (returns script).
    + intros _ -> Hcrash. by rewrite Hcrash in Hres.
  - split; [done|]. intros _ -> Hcrash. by rewrite Hcrash in Hres.
  - split; [done|]. intros _ -> Hcrash.
    rewrite Hcrash in Hres, Hr. injection Hres as ->.
    simpl. by rewrite inner_Inner, Hr, Hv.
Qed.

End FullMainFacts.

(** ** From the bytes on, at sample inputs *)




Lemma X6_witness :
  callbacks (Full.scan_qr_codes falsy_object sample_hull true
               [Shot [raw_sample "A" 100] 113] 0).2 = []
  ∧ (Full.scan_qr_codes falsy_object sample_hull true
       [Shot [raw_sample "A" 100] 113] 0).1.2 = 0.
Proof.
  apply (proj2 (X6_callback_once_per_acceptance falsy_object sample_hull true
                  [Shot [raw_sample "A" 100] 113] 0)).
  right. eexists. split; reflexivity.
Defined.

Lemma X12_witness :
  (Full.main sample_hull good_camera true [Shot [raw_sample bad_payload 100] (-1)]).1
    = Raised UnicodeDecodeError
  ∧ releases (inner (Full.main sample_hull good_camera true
                       [Shot [raw_sample bad_payload 100] (-1)]).2) = 1
  ∧ captures (inner (Full.main sample_hull good_camera true
                       [Shot [raw_sample bad_payload 100] (-1)]).2) = 2.
Proof.
  apply (proj2 (X12_script_leaves_no_camera_open sample_hull good_camera true
                  [Shot [raw_sample bad_payload 100] (-1)] true (true, Some tt)
                  eq_refl eq_refl eq_refl eq_refl)); reflexivity.
Defined.
